(** * gcp-hcp-cli: the workflow execution client and the resume command

    A shallow embedding of [pkg/gcp/workflows] (the error classifier
    [wrapAuthError], the Gateway operations [Execute], [GetExecution],
    [WaitForCompletion], [ListExecutions], [List], and the callback
    operations [ListCallbacks] and [TriggerCallback]) and of the [RunE]
    handler of [ops wf resume].

    Everything that lives outside the repository (the gRPC and HTTP
    transports, the credential lookup, [encoding/json], the context's
    cancellation) is an environment [Env] of scripted answers; the client
    code runs in a small state monad that counts the external calls made so
    far and logs them. *)

From Stdlib Require Import ZArith String Ascii List Lia DecimalString.
From stdpp Require Import base strings gmap list.

Open Scope string_scope.
Open Scope Z_scope.

(** ** Strings *)

(** The line feed of Go's ["\n"]. *)
Definition nl : string := String (ascii_of_nat 10) EmptyString.

(** [strings.HasPrefix]. *)
Fixpoint HasPrefix (s prefix : string) {struct prefix} : bool :=
  match prefix, s with
  | EmptyString, _ => true
  | String c p', String d s' => if Ascii.eqb c d then HasPrefix s' p' else false
  | String _ _, EmptyString => false
  end.

(** [strings.Contains]: [substr] occurs somewhere in [s]. *)
Fixpoint Contains (s substr : string) : bool :=
  HasPrefix s substr ||
  match s with
  | EmptyString => false
  | String _ s' => Contains s' substr
  end.

(** [strconv.Itoa] / the [%d] verb. *)
Definition Itoa (n : Z) : string := NilZero.string_of_int (Z.to_int n).

(** ** Go errors

    [errorString] is what [fmt.Errorf] builds without a [%w] verb,
    [wrapError] what it builds with one: the message and the wrapped
    error. *)
Inductive error : Type :=
| errorString (s : string)
| wrapError (msg : string) (err : error).

Definition Error (e : error) : string :=
  match e with
  | errorString s => s
  | wrapError msg _ => msg
  end.

Definition Unwrap (e : error) : option error :=
  match e with
  | errorString _ => None
  | wrapError _ err => Some err
  end.

(** [fmt.Errorf(label + ": %w", err)]. *)
Definition Errorf_w (label : string) (err : error) : error :=
  wrapError (label +:+ ": " +:+ Error err) err.

(** ** The error classifier (part_005, [wrapAuthError]) *)

Definition noCredentialsText : string :=
  ": no GCP credentials found" +:+ nl +:+ nl +:+
  "  Run: gcloud auth application-default login" +:+ nl +:+
  "  Or set GOOGLE_APPLICATION_CREDENTIALS to a service account key file".

Definition expiredText : string :=
  ": GCP credentials have expired" +:+ nl +:+ nl +:+
  "  Run: gcloud auth application-default login".

Definition permissionDeniedText : string :=
  ": permission denied" +:+ nl +:+ nl +:+
  "  Ensure your account has the required roles:" +:+ nl +:+
  "    - roles/workflows.invoker (to execute workflows)" +:+ nl +:+
  "    - roles/workflows.viewer (to list workflows)" +:+ nl +:+ nl +:+
  "  Check: gcloud projects get-iam-policy <project> --flatten='bindings[].members' --filter='bindings.members:<your-email>'".

Definition notFoundText : string :=
  ": resource not found" +:+ nl +:+ nl +:+
  "  Verify the workflow exists: gcphcp ops wf list --project <project> --region <region>" +:+ nl +:+
  "  Check --project and --region flags are correct".

Definition unauthenticatedText : string :=
  ": authentication failed" +:+ nl +:+ nl +:+
  "  Run: gcloud auth application-default login" +:+ nl +:+
  "  Or: gcloud auth login".

Definition wrapAuthError (action : string) (err : error) : error :=
  let msg := Error err in
  if Contains msg "could not find default credentials" then
    errorString (action +:+ noCredentialsText)
  else if Contains msg "token expired" || Contains msg "oauth2: token expired" then
    errorString (action +:+ expiredText)
  else if Contains msg "PermissionDenied" || Contains msg "permission denied"
          || Contains msg "403" then
    errorString (action +:+ permissionDeniedText)
  else if Contains msg "NotFound" || Contains msg "not found" then
    errorString (action +:+ notFoundText)
  else if Contains msg "Unauthenticated" || Contains msg "401" then
    errorString (action +:+ unauthenticatedText)
  else
    Errorf_w action err.

(** The classifier as the specification words it: a table of cause kinds in
    priority order, each with its substrings; the first kind one of whose
    substrings occurs in the message wins. *)
Module Classifier.

Inductive Cause : Type :=
| MissingCredentials
| ExpiredCredentials
| PermissionDenied
| ResourceNotFound
| Unauthenticated
| Unclassified.

Definition table : list (Cause * list string) :=
  [ (MissingCredentials, ["could not find default credentials"]);
    (ExpiredCredentials, ["token expired"; "oauth2: token expired"]);
    (PermissionDenied, ["PermissionDenied"; "permission denied"; "403"]);
    (ResourceNotFound, ["NotFound"; "not found"]);
    (Unauthenticated, ["Unauthenticated"; "401"]) ].

Definition matches (msg : string) (row : Cause * list string) : bool :=
  existsb (Contains msg) (snd row).

Definition classify (msg : string) : Cause :=
  match List.find (matches msg) table with
  | Some row => fst row
  | None => Unclassified
  end.

Definition remediation (c : Cause) : string :=
  match c with
  | MissingCredentials => noCredentialsText
  | ExpiredCredentials => expiredText
  | PermissionDenied => permissionDeniedText
  | ResourceNotFound => notFoundText
  | Unauthenticated => unauthenticatedText
  | Unclassified => ""
  end.

Definition render (action : string) (c : Cause) (err : error) : error :=
  match c with
  | Unclassified => wrapError (action +:+ ": " +:+ Error err) err
  | _ => errorString (action +:+ remediation c)
  end.

End Classifier.

(** ** Time

    A [time.Time] built by [timestamppb.Timestamp.AsTime] carries no
    monotonic reading; it is modelled by its instant, in nanoseconds since
    the Unix epoch.  A [time.Duration] is an [int64] count of
    nanoseconds. *)

Definition Millisecond : Z := 1000000.
Definition Second : Z := 1000 * Millisecond.

Definition minDuration : Z := - 2 ^ 63.
Definition maxDuration : Z := 2 ^ 63 - 1.

(** Two's-complement wrap-around of [int64] and [int32] arithmetic. *)
Definition wrap64 (z : Z) : Z := (z + 2 ^ 63) mod 2 ^ 64 - 2 ^ 63.
Definition wrap32 (z : Z) : Z := (z + 2 ^ 31) mod 2 ^ 32 - 2 ^ 31.

(** The zero [time.Time{}]: January 1, year 1, 00:00 UTC. *)
Definition zeroTime : Z := -62135596800 * Second.


(** [t.Sub(u)]: the difference, saturated to the range of a Duration. *)
Definition Sub (t u : Z) : Z :=
  let d := t - u in
  if Z.ltb d minDuration then minDuration
  else if Z.ltb maxDuration d then maxDuration
  else d.

(** [Timestamp.AsTime] of timestamppb: a nil timestamp reads as the Unix
    epoch. *)
Definition AsTime (ts : option Z) : Z :=
  match ts with
  | Some t => t
  | None => 0
  end.

(** ** Data *)

(** A value of Go's [interface{}] as [encoding/json] decodes it. *)
#[warning="-register-all"]
Inductive any : Type :=
| anyNil
| anyBool (b : bool)
| anyNumber (lit : string)
| anyString (s : string)
| anyList (l : list any)
| anyMap (m : gmap string any).

(** The fields of [executionspb.Execution] that the client reads.
    [ex_State] is [exec.State.String()], [ex_Error] is [exec.Error.Context]
    when [exec.Error] is not nil. *)
Record Execution : Type := {
  ex_Name : string;
  ex_State : string;
  ex_StartTime : option Z;
  ex_EndTime : option Z;
  ex_Result : string;
  ex_Error : option string
}.

(** The fields of [workflowspb.Workflow] that the client reads. *)
Record Workflow : Type := {
  wf_Name : string;
  wf_State : string;
  wf_RevisionId : string;
  wf_UpdateTime : option Z
}.

Record CallbackInfo : Type := {
  cb_Name : string;
  cb_Method : string;
  cb_URL : string
}.

(** [ExecutionResult]; a nil map is [None], unassigned fields hold Go's
    zero values. *)
Record ExecutionResult : Type := {
  er_Name : string;
  er_State : string;
  er_Result : option (gmap string any);
  er_Error : string;
  er_Duration : Z;
  er_StartTime : Z;
  er_EndTime : Z;
  er_Callbacks : list CallbackInfo
}.

Record WorkflowInfo : Type := {
  wi_Name : string;
  wi_State : string;
  wi_RevisionID : string;
  wi_UpdateTime : Z
}.

Record ExecutionInfo : Type := {
  ei_ID : string;
  ei_State : string;
  ei_StartTime : Z;
  ei_EndTime : Z;
  ei_Duration : string
}.

Definition set_EndTime (t : Z) (r : ExecutionResult) : ExecutionResult :=
  {| er_Name := er_Name r; er_State := er_State r; er_Result := er_Result r;
     er_Error := er_Error r; er_Duration := er_Duration r;
     er_StartTime := er_StartTime r; er_EndTime := t;
     er_Callbacks := er_Callbacks r |}.

Definition set_Duration (d : Z) (r : ExecutionResult) : ExecutionResult :=
  {| er_Name := er_Name r; er_State := er_State r; er_Result := er_Result r;
     er_Error := er_Error r; er_Duration := d;
     er_StartTime := er_StartTime r; er_EndTime := er_EndTime r;
     er_Callbacks := er_Callbacks r |}.

Definition set_Result (m : option (gmap string any)) (r : ExecutionResult)
  : ExecutionResult :=
  {| er_Name := er_Name r; er_State := er_State r; er_Result := m;
     er_Error := er_Error r; er_Duration := er_Duration r;
     er_StartTime := er_StartTime r; er_EndTime := er_EndTime r;
     er_Callbacks := er_Callbacks r |}.

Definition set_Error (s : string) (r : ExecutionResult) : ExecutionResult :=
  {| er_Name := er_Name r; er_State := er_State r; er_Result := er_Result r;
     er_Error := s; er_Duration := er_Duration r;
     er_StartTime := er_StartTime r; er_EndTime := er_EndTime r;
     er_Callbacks := er_Callbacks r |}.

(** ** The environment and the monad of the client *)

Record Request : Type := {
  req_Method : string;
  req_URL : string;
  req_Body : option string;
  req_ContentType : option string
}.

(** An HTTP response: the status code and what [io.ReadAll] gives for the
    body, the bytes read and the read error, if any. *)
Record Response : Type := {
  resp_StatusCode : Z;
  resp_Body : string;
  resp_ReadErr : option error
}.

Inductive Event : Type :=
| EvCreateExecution (parent argument : string)
| EvGetExecution (name : string)
| EvSleep (d : Z)
| EvCtxDone (d : Z)
| EvDefaultClient
| EvHTTP (req : Request)
| EvStderr (line : string)
| EvClose.

(** The answers of everything outside the repository.  Calls that may be
    repeated are answered by their index: [env_GetExecution n] is the answer
    to the n-th [GetExecution] RPC, [env_select n] how the n-th [select]
    ends ([None]: the timer fires; [Some e]: [ctx.Done()] is ready and
    [ctx.Err()] is [e]). *)
Record Env : Type := {
  env_execNewClient : option error;
  env_wfNewClient : option error;
  env_CreateExecution : string -> string -> error + Execution;
  env_GetExecution : nat -> string -> error + Execution;
  env_select : nat -> option error;
  env_ListExecutions : string -> Z -> list (error + Execution);
  env_ListWorkflows : string -> list (error + Workflow);
  env_DefaultClient : nat -> option error;
  env_NewRequest : string -> string -> option error;
  env_Do : nat -> Request -> error + Response;
  json_Marshal : option (gmap string any) -> error + string;
  json_Unmarshal : string -> error + option (gmap string any);
  json_Valid : string -> bool;
  json_UnmarshalCallbacks : string -> error + list (string * string);
  env_roundMsString : Z -> string;
  env_printStatus : ExecutionResult -> string -> string -> string -> option error
}.

(** What [encoding/json] promises and the client relies on: decoding text
    that is not valid JSON fails. *)
Definition json_sound (env : Env) : Prop :=
  forall s, json_Valid env s = false -> exists e, json_Unmarshal env s = inl e.

Record St : Type := {
  st_rpc : nat;
  st_sel : nat;
  st_cred : nat;
  st_http : nat;
  st_log : list Event
}.

Definition st0 : St :=
  {| st_rpc := 0; st_sel := 0; st_cred := 0; st_http := 0; st_log := [] |}.

Definition M (A : Type) : Type := St -> A * St.

Definition ret {A} (a : A) : M A := fun s => (a, s).

Definition bind {A B} (m : M A) (k : A -> M B) : M B :=
  fun s => let (a, s') := m s in k a s'.

Notation "x <~ m ;; k" := (bind m (fun x => k))
  (at level 20, m at level 99, k at level 200, only parsing).

Definition emit (ev : Event) : M unit :=
  fun s => (tt, {| st_rpc := st_rpc s; st_sel := st_sel s; st_cred := st_cred s;
                   st_http := st_http s; st_log := st_log s ++ [ev] |}).

(** [strings.Split] on a one-byte separator. *)
Fixpoint Split (s : string) (sep : ascii) : list string :=
  match s with
  | EmptyString => [EmptyString]
  | String c s' =>
      if Ascii.eqb c sep then EmptyString :: Split s' sep
      else match Split s' sep with
           | x :: xs => String c x :: xs
           | [] => [String c EmptyString]
           end
  end.

Fixpoint dropBytes (n : nat) (s : string) : string :=
  match n, s with
  | O, _ => s
  | S n', String _ s' => dropBytes n' s'
  | S _, EmptyString => EmptyString
  end.

(** The slice expression [s[i:]]; [None] is the run-time panic of an index
    out of range. *)
Definition sliceFrom (s : string) (i : nat) : option string :=
  if Nat.leb i (String.length s) then Some (dropBytes i s) else None.

(** ** The client (part_005, part_006) *)

Record Client : Type := {
  Project : string;
  Region : string
}.

Definition callbacksAPIBase : string :=
  "https://workflowexecutions.googleapis.com/v1".

Definition MethodGet : string := "GET".
Definition MethodPost : string := "POST".
Definition StatusOK : Z := 200.

Definition workflowParent (c : Client) : string :=
  "projects/" +:+ Project c +:+ "/locations/" +:+ Region c.

Definition workflowName (c : Client) (name : string) : string :=
  "projects/" +:+ Project c +:+ "/locations/" +:+ Region c +:+
  "/workflows/" +:+ name.

Section Client.

Variable env : Env.

(** *** Calls that leave the process *)

Definition execClient_CreateExecution (parent argument : string)
  : M (error + Execution) :=
  _ <~ emit (EvCreateExecution parent argument) ;;
  ret (env_CreateExecution env parent argument).

Definition execClient_GetExecution (name : string) : M (error + Execution) :=
  fun s =>
    (env_GetExecution env (st_rpc s) name,
     {| st_rpc := S (st_rpc s); st_sel := st_sel s; st_cred := st_cred s;
        st_http := st_http s; st_log := st_log s ++ [EvGetExecution name] |}).

(** [select { case <-ctx.Done(): ...; case <-time.After(d): }] *)
Definition select_Done_After (d : Z) : M (option error) :=
  fun s =>
    let ctxErr := env_select env (st_sel s) in
    (ctxErr,
     {| st_rpc := st_rpc s; st_sel := S (st_sel s); st_cred := st_cred s;
        st_http := st_http s;
        st_log := st_log s ++
                  [match ctxErr with Some _ => EvCtxDone d | None => EvSleep d end] |}).

Definition google_DefaultClient : M (option error) :=
  fun s =>
    (env_DefaultClient env (st_cred s),
     {| st_rpc := st_rpc s; st_sel := st_sel s; st_cred := S (st_cred s);
        st_http := st_http s; st_log := st_log s ++ [EvDefaultClient] |}).

Definition http_NewRequest (method url : string) (body : option string)
  : error + Request :=
  match env_NewRequest env method url with
  | Some err => inl err
  | None => inr {| req_Method := method; req_URL := url; req_Body := body;
                   req_ContentType := None |}
  end.

Definition Header_Set_ContentType (v : string) (req : Request) : Request :=
  {| req_Method := req_Method req; req_URL := req_URL req;
     req_Body := req_Body req; req_ContentType := Some v |}.

Definition httpClient_Do (req : Request) : M (error + Response) :=
  fun s =>
    (env_Do env (st_http s) req,
     {| st_rpc := st_rpc s; st_sel := st_sel s; st_cred := st_cred s;
        st_http := S (st_http s); st_log := st_log s ++ [EvHTTP req] |}).

(** *** NewClient and Close *)

Definition Close : M unit := emit EvClose.

Definition NewClient (project region : string) : M (error + Client) :=
  match env_execNewClient env with
  | Some err => ret (inl (wrapAuthError "creating workflows client" err))
  | None =>
      match env_wfNewClient env with
      | Some err =>
          _ <~ Close ;;
          ret (inl (wrapAuthError "creating workflows client" err))
      | None => ret (inr {| Project := project; Region := region |})
      end
  end.

(** *** Execute *)

Definition Execute (c : Client) (workflow : string)
           (args : option (gmap string any)) : M (error + string) :=
  match json_Marshal env args with
  | inl err => ret (inl (Errorf_w "marshaling arguments" err))
  | inr argJSON =>
      r <~ execClient_CreateExecution (workflowName c workflow) argJSON ;;
      match r with
      | inl err =>
          ret (inl (wrapAuthError ("executing workflow '" +:+ workflow +:+ "'") err))
      | inr exec => ret (inr (ex_Name exec))
      end
  end.

(** *** GetExecution *)

Definition GetExecution (c : Client) (executionName : string)
  : M (error + ExecutionResult) :=
  r <~ execClient_GetExecution executionName ;;
  match r with
  | inl err => ret (inl (wrapAuthError "getting execution status" err))
  | inr exec =>
      let result :=
        {| er_Name := ex_Name exec;
           er_State := ex_State exec;
           er_Result := None;
           er_Error := "";
           er_Duration := 0;
           er_StartTime := AsTime (ex_StartTime exec);
           er_EndTime := zeroTime;
           er_Callbacks := [] |} in
      let result :=
        match ex_EndTime exec with
        | Some t =>
            let result := set_EndTime (AsTime (Some t)) result in
            set_Duration (Sub (er_EndTime result) (er_StartTime result)) result
        | None => result
        end in
      let result :=
        if String.eqb (er_State result) "SUCCEEDED" then
          match json_Unmarshal env (ex_Result exec) with
          | inl _ =>
              set_Result (Some {[ "raw" := anyString (ex_Result exec) ]}) result
          | inr parsed => set_Result parsed result
          end
        else if String.eqb (er_State result) "FAILED" then
          match ex_Error exec with
          | Some context => set_Error context result
          | None => result
          end
        else result in
      ret (inr result)
  end.

(** *** WaitForCompletion

    The [for] loop; [fuel] bounds the number of iterations run, and
    [None] is a loop that is still polling when the fuel is spent. *)

Definition maxPoll : Z := 2 * Second.

Definition nextPollInterval (pollInterval : Z) : Z :=
  if Z.ltb pollInterval maxPoll then
    let pollInterval := wrap64 (pollInterval * 2) in
    if Z.ltb maxPoll pollInterval then maxPoll else pollInterval
  else pollInterval.

Fixpoint waitLoop (fuel : nat) (executionName : string) (pollInterval : Z)
  : M (option (error + ExecutionResult)) :=
  match fuel with
  | O => ret None
  | S fuel' =>
      r <~ execClient_GetExecution executionName ;;
      match r with
      | inl err =>
          ret (Some (inl (wrapAuthError "checking execution status" err)))
      | inr exec =>
          let state := ex_State exec in
          if negb (String.eqb state "ACTIVE") && negb (String.eqb state "QUEUED")
          then
            let result :=
              {| er_Name := ex_Name exec;
                 er_State := state;
                 er_Result := None;
                 er_Error := "";
                 er_Duration := 0;
                 er_StartTime := AsTime (ex_StartTime exec);
                 er_EndTime := zeroTime;
                 er_Callbacks := [] |} in
            let result :=
              match ex_EndTime exec with
              | Some t =>
                  let result := set_EndTime (AsTime (Some t)) result in
                  set_Duration (Sub (er_EndTime result) (er_StartTime result))
                               result
              | None => result
              end in
            let result :=
              if String.eqb state "SUCCEEDED" then
                match json_Unmarshal env (ex_Result exec) with
                | inl _ =>
                    set_Result (Some {[ "raw" := anyString (ex_Result exec) ]})
                               result
                | inr parsed => set_Result parsed result
                end
              else if String.eqb state "FAILED" then
                match ex_Error exec with
                | Some context => set_Error context result
                | None => result
                end
              else result in
            ret (Some (inr result))
          else
            done <~ select_Done_After pollInterval ;;
            match done with
            | Some ctxErr => ret (Some (inl ctxErr))
            | None => waitLoop fuel' executionName (nextPollInterval pollInterval)
            end
      end
  end.

Definition WaitForCompletion (c : Client) (fuel : nat) (executionName : string)
  : M (option (error + ExecutionResult)) :=
  waitLoop fuel executionName (500 * Millisecond).

(** *** ListExecutions and List

    The paging iterator is the list of what its [Next] returns, one entry
    per call; [iterator.Done] is the end of the list. *)

Definition executionInfo (exec : Execution) : ExecutionInfo :=
  let info :=
    {| ei_ID := ""; ei_State := ex_State exec; ei_StartTime := zeroTime;
       ei_EndTime := zeroTime; ei_Duration := "" |} in
  let parts := Split (ex_Name exec) "/"%char in
  let info :=
    {| ei_ID := List.last parts ""; ei_State := ei_State info;
       ei_StartTime := ei_StartTime info; ei_EndTime := ei_EndTime info;
       ei_Duration := ei_Duration info |} in
  let info :=
    match ex_StartTime exec with
    | Some t =>
        {| ei_ID := ei_ID info; ei_State := ei_State info;
           ei_StartTime := AsTime (Some t); ei_EndTime := ei_EndTime info;
           ei_Duration := ei_Duration info |}
    | None => info
    end in
  match ex_EndTime exec with
  | Some t =>
      let d := Sub (AsTime (Some t)) (ei_StartTime info) in
      {| ei_ID := ei_ID info; ei_State := ei_State info;
         ei_StartTime := ei_StartTime info; ei_EndTime := AsTime (Some t);
         ei_Duration := env_roundMsString env d |}
  | None => info
  end.

Fixpoint listExecutionsLoop (it : list (error + Execution)) (workflow : string)
         (limit : Z) (result : list ExecutionInfo) : error + list ExecutionInfo :=
  match it with
  | [] => inr result
  | inl err :: _ =>
      inl (wrapAuthError ("listing executions for '" +:+ workflow +:+ "'") err)
  | inr exec :: it' =>
      let result := (result ++ [executionInfo exec])%list in
      if Z.leb limit (Z.of_nat (length result)) then inr result
      else listExecutionsLoop it' workflow limit result
  end.

Definition ListExecutions (c : Client) (workflow : string) (limit : Z)
  : error + list ExecutionInfo :=
  listExecutionsLoop
    (env_ListExecutions env (workflowName c workflow) (wrap32 limit))
    workflow limit [].

(** [None] is the panic of the slice expression on a workflow name longer
    than the parent but shorter than parent plus ["/workflows/"]. *)
Fixpoint listLoop (c : Client) (it : list (error + Workflow))
         (result : list WorkflowInfo) : option (error + list WorkflowInfo) :=
  match it with
  | [] => Some (inr result)
  | inl err :: _ => Some (inl (wrapAuthError "listing workflows" err))
  | inr wf :: it' =>
      let shortName :=
        if Nat.ltb (String.length (workflowParent c)) (String.length (wf_Name wf))
        then sliceFrom (wf_Name wf)
               (String.length (workflowParent c) + String.length "/workflows/")
        else Some (wf_Name wf) in
      match shortName with
      | None => None
      | Some shortName =>
          let info :=
            {| wi_Name := shortName; wi_State := wf_State wf;
               wi_RevisionID := wf_RevisionId wf;
               wi_UpdateTime :=
                 match wf_UpdateTime wf with
                 | Some t => AsTime (Some t)
                 | None => zeroTime
                 end |} in
          listLoop c it' (result ++ [info])%list
      end
  end.

Definition List_ (c : Client) : option (error + list WorkflowInfo) :=
  listLoop c (env_ListWorkflows env (workflowParent c)) [].

(** *** ListCallbacks and TriggerCallback (part_006) *)

Definition ListCallbacks (c : Client) (executionName : string)
  : M (error + list CallbackInfo) :=
  httpClient <~ google_DefaultClient ;;
  match httpClient with
  | Some err => ret (inl (wrapAuthError "creating HTTP client for callbacks" err))
  | None =>
      let url := callbacksAPIBase +:+ "/" +:+ executionName +:+ "/callbacks" in
      match http_NewRequest MethodGet url None with
      | inl err => ret (inl (Errorf_w "creating callbacks request" err))
      | inr req =>
          r <~ httpClient_Do req ;;
          match r with
          | inl err => ret (inl (wrapAuthError "listing callbacks" err))
          | inr resp =>
              match resp_ReadErr resp with
              | Some err => ret (inl (Errorf_w "reading callbacks response" err))
              | None =>
                  let body := resp_Body resp in
                  if negb (Z.eqb (resp_StatusCode resp) StatusOK) then
                    ret (inl (errorString
                                ("listing callbacks: HTTP " +:+
                                 Itoa (resp_StatusCode resp) +:+ ": " +:+ body)))
                  else
                    match json_UnmarshalCallbacks env body with
                    | inl err =>
                        ret (inl (Errorf_w "parsing callbacks response" err))
                    | inr parsed =>
                        ret (inr (List.map
                                    (fun cb : string * string =>
                                       {| cb_Name := fst cb;
                                          cb_Method := snd cb;
                                          cb_URL := callbacksAPIBase +:+ "/" +:+ fst cb |})
                                    parsed))
                    end
              end
          end
      end
  end.

Definition TriggerCallback (c : Client) (callbackURL method : string)
           (data : option (gmap string any)) : M (option error) :=
  httpClient <~ google_DefaultClient ;;
  match httpClient with
  | Some err =>
      ret (Some (wrapAuthError "creating HTTP client for callback trigger" err))
  | None =>
      let marshaled : error + option string :=
        match data with
        | Some _ =>
            match json_Marshal env data with
            | inl err => inl err
            | inr jsonData => inr (Some jsonData)
            end
        | None => inr None
        end in
      match marshaled with
      | inl err => ret (Some (Errorf_w "marshaling callback data" err))
      | inr bodyReader =>
          let method := if String.eqb method "" then MethodPost else method in
          match http_NewRequest method callbackURL bodyReader with
          | inl err => ret (Some (Errorf_w "creating callback request" err))
          | inr req =>
              let req :=
                match data with
                | Some _ => Header_Set_ContentType "application/json" req
                | None => req
                end in
              r <~ httpClient_Do req ;;
              match r with
              | inl err => ret (Some (wrapAuthError "triggering callback" err))
              | inr resp =>
                  if Z.ltb (resp_StatusCode resp) 200
                     || Z.leb 300 (resp_StatusCode resp) then
                    ret (Some (errorString
                                 ("triggering callback: HTTP " +:+
                                  Itoa (resp_StatusCode resp) +:+ ": " +:+
                                  resp_Body resp)))
                  else ret None
              end
          end
      end
  end.

End Client.

(** ** The resume command (pkg/ops/wf/resume.go, [RunE] of [newResumeCmd]) *)

(** The flags the handler reads.  [--timeout] only sets the deadline of the
    context, whose expiry is the environment's [env_select]. *)
Record ResumeFlags : Type := {
  flag_project : string;
  flag_region : string;
  flag_output : string;
  flag_data : string;
  flag_wait : bool
}.

(** Which [return] of the handler was taken, in the words of the error
    taxonomy. *)
Inductive FailureKind : Type :=
| FlagRequired
| ClientCreationFailed
| StatusReadFailed
| UnexpectedCallbackState
| CallbackListingFailed
| NoCompatibleCallback
| DataParsingFailed
| TriggerFailed
| WaitFailed
| PrintFailed.

(** The handler's return: [Returned None] is [return nil], [Returned (Some
    (k, err))] is the [return] of kind [k] with the error value [err], and
    [StillWaiting] is a [--wait] whose polling outlasts the fuel. *)
Inductive Outcome : Type :=
| Returned (r : option (FailureKind * error))
| StillWaiting.

Definition fail (k : FailureKind) (err : error) : M Outcome :=
  ret (Returned (Some (k, err))).

Section Resume.

Variable env : Env.

Definition resumeBody (flags : ResumeFlags) (fuel : nat) (client : Client)
           (workflow execID execName : string) : M Outcome :=
  r <~ GetExecution env client execName ;;
  match r with
  | inl err => fail StatusReadFailed (Errorf_w "getting execution status" err)
  | inr result =>
      if negb (String.eqb (er_State result) "ACTIVE") then
        fail UnexpectedCallbackState
             (errorString ("execution is " +:+ er_State result +:+
                           ", not waiting on a callback"))
      else
        l <~ ListCallbacks env client (er_Name result) ;;
        match l with
        | inl err => fail CallbackListingFailed (Errorf_w "listing callbacks" err)
        | inr callbacks =>
            match callbacks with
            | [] =>
                fail NoCompatibleCallback
                     (errorString "execution is ACTIVE but has no pending callbacks")
            | cb :: _ =>
                let parsed : error + option (gmap string any) :=
                  if negb (String.eqb (flag_data flags) "") then
                    json_Unmarshal env (flag_data flags)
                  else inr None in
                match parsed with
                | inl err =>
                    fail DataParsingFailed (Errorf_w "parsing --data as JSON" err)
                | inr parsedData =>
                    _ <~ emit (EvStderr ("Triggering callback: " +:+ cb_Method cb
                                         +:+ " " +:+ cb_URL cb +:+ nl)) ;;
                    t <~ TriggerCallback env client (cb_URL cb) (cb_Method cb)
                                         parsedData ;;
                    match t with
                    | Some err =>
                        fail TriggerFailed (Errorf_w "triggering callback" err)
                    | None =>
                        _ <~ emit (EvStderr ("Callback triggered. Workflow resuming."
                                             +:+ nl)) ;;
                        if flag_wait flags then
                          _ <~ emit (EvStderr ("Waiting for execution to complete..."
                                               +:+ nl)) ;;
                          w <~ WaitForCompletion env client fuel execName ;;
                          match w with
                          | None => ret StillWaiting
                          | Some (inl err) =>
                              fail WaitFailed (Errorf_w "waiting for execution" err)
                          | Some (inr result) =>
                              match env_printStatus env result workflow execID
                                                    (flag_output flags) with
                              | Some err => fail PrintFailed err
                              | None => ret (Returned None)
                              end
                          end
                        else
                          _ <~ emit (EvStderr (nl +:+ "Check progress with:" +:+ nl)) ;;
                          _ <~ emit (EvStderr ("  gcphcp ops wf status " +:+ workflow
                                               +:+ " " +:+ execID +:+ nl)) ;;
                          ret (Returned None)
                    end
                end
            end
        end
  end.

Definition RunE (flags : ResumeFlags) (fuel : nat) (workflow execID : string)
  : M Outcome :=
  let project := flag_project flags in
  let region := flag_region flags in
  if String.eqb project "" then
    fail FlagRequired (errorString "--project is required (or set GCPHCP_PROJECT)")
  else if String.eqb region "" then
    fail FlagRequired (errorString "--region is required (or set GCPHCP_REGION)")
  else
    let execName :=
      "projects/" +:+ project +:+ "/locations/" +:+ region +:+
      "/workflows/" +:+ workflow +:+ "/executions/" +:+ execID in
    c <~ NewClient env project region ;;
    match c with
    | inl err => fail ClientCreationFailed (Errorf_w "creating client" err)
    | inr client =>
        out <~ resumeBody flags fuel client workflow execID execName ;;
        _ <~ Close ;;
        ret out
    end.

End Resume.


(** * Vocabulary of the properties *)

(** The states in which the poller keeps polling. *)
Definition nonTerminal (state : string) : bool :=
  String.eqb state "ACTIVE" || String.eqb state "QUEUED".

(** The i-th interval of the backoff sequence 500 ms, 1 s, 2 s, 2 s, ... *)
Definition backoff (i : nat) : Z :=
  Z.min (500 * Millisecond * 2 ^ Z.of_nat i) (2 * Second).

(** The events of [k] rounds of poll-and-sleep, the first sleep being
    [backoff j]. *)
Fixpoint pollLog (name : string) (j k : nat) : list Event :=
  match k with
  | O => []
  | S k' => EvGetExecution name :: EvSleep (backoff j) :: pollLog name (S j) k'
  end.

(** The state after those [k] rounds. *)
Definition afterPolls (name : string) (j k : nat) (s : St) : St :=
  {| st_rpc := st_rpc s + k; st_sel := st_sel s + k; st_cred := st_cred s;
     st_http := st_http s; st_log := st_log s ++ pollLog name j k |}.

(** The state after one more [GetExecution] RPC. *)
Definition afterGet (name : string) (s : St) : St :=
  {| st_rpc := S (st_rpc s); st_sel := st_sel s; st_cred := st_cred s;
     st_http := st_http s; st_log := st_log s ++ [EvGetExecution name] |}.

(** From state [s] on, the next [k] reads observe a non-terminal execution
    and the context is not cancelled during the [k] waits that follow
    them. *)
Definition polling (env : Env) (s : St) (name : string) (k : nat) : Prop :=
  forall i, (i < k)%nat ->
    (exists x, env_GetExecution env (st_rpc s + i) name = inr x
               /\ nonTerminal (ex_State x) = true)
    /\ env_select env (st_sel s + i) = None.

(** The intervals of the timers armed, and of those that fired. *)
Definition timers (evs : list Event) : list Z :=
  flat_map (fun ev => match ev with
                      | EvSleep d | EvCtxDone d => [d]
                      | _ => []
                      end) evs.

Definition sleeps (evs : list Event) : list Z :=
  flat_map (fun ev => match ev with EvSleep d => [d] | _ => [] end) evs.

Definition reads (evs : list Event) : nat :=
  length (List.filter
            (fun ev => match ev with EvGetExecution _ => true | _ => false end)
            evs).

Definition requests (evs : list Event) : list Request :=
  flat_map (fun ev => match ev with EvHTTP r => [r] | _ => [] end) evs.

(** The record that one observation [exec] is turned into. *)
Definition resultOf (env : Env) (exec : Execution) : ExecutionResult :=
  {| er_Name := ex_Name exec;
     er_State := ex_State exec;
     er_Result :=
       if String.eqb (ex_State exec) "SUCCEEDED" then
         match json_Unmarshal env (ex_Result exec) with
         | inl _ => Some {[ "raw" := anyString (ex_Result exec) ]}
         | inr parsed => parsed
         end
       else None;
     er_Error :=
       if String.eqb (ex_State exec) "SUCCEEDED" then ""
       else if String.eqb (ex_State exec) "FAILED" then
         match ex_Error exec with Some context => context | None => "" end
       else "";
     er_Duration :=
       match ex_EndTime exec with
       | Some t => Sub t (AsTime (ex_StartTime exec))
       | None => 0
       end;
     er_StartTime := AsTime (ex_StartTime exec);
     er_EndTime :=
       match ex_EndTime exec with Some t => t | None => zeroTime end;
     er_Callbacks := [] |}.

(** The state after one more [select], which logged [ev]. *)
Definition afterSelect (ev : Event) (s : St) : St :=
  {| st_rpc := st_rpc s; st_sel := S (st_sel s); st_cred := st_cred s;
     st_http := st_http s; st_log := st_log s ++ [ev] |}.









(** The request [TriggerCallback] builds. *)
Definition triggerRequest (callbackURL method : string) (body : option string)
  : Request :=
  {| req_Method := if String.eqb method "" then MethodPost else method;
     req_URL := callbackURL;
     req_Body := body;
     req_ContentType :=
       match body with Some _ => Some "application/json" | None => None end |}.

(** The execution that [resume] addresses. *)
Definition resumeExecName (flags : ResumeFlags) (workflow execID : string)
  : string :=
  "projects/" +:+ flag_project flags +:+ "/locations/" +:+ flag_region flags +:+
  "/workflows/" +:+ workflow +:+ "/executions/" +:+ execID.

(** The record [resume] observes: that of its status read, when the command
    gets as far as the read and the read succeeds. *)
Definition resumeObserved (env : Env) (flags : ResumeFlags)
           (workflow execID : string) (s : St) : option ExecutionResult :=
  if String.eqb (flag_project flags) "" then None
  else if String.eqb (flag_region flags) "" then None
  else
    match env_execNewClient env, env_wfNewClient env with
    | None, None =>
        match env_GetExecution env (st_rpc s)
                               (resumeExecName flags workflow execID) with
        | inr exec => Some (resultOf env exec)
        | inl _ => None
        end
    | _, _ => None
    end.

(** The callbacks [ListCallbacks] returns for the observed record, when it
    returns a list. *)
Definition resumeListed (env : Env) (flags : ResumeFlags)
           (workflow execID : string) (s : St) : option (list CallbackInfo) :=
  match resumeObserved env flags workflow execID s with
  | Some r =>
      match fst (ListCallbacks env
                   {| Project := flag_project flags; Region := flag_region flags |}
                   (er_Name r)
                   (afterGet (resumeExecName flags workflow execID) s)) with
      | inr callbacks => Some callbacks
      | inl _ => None
      end
  | None => None
  end.

(** The request with which [ListCallbacks] asks for the callbacks. *)
Definition listingRequest (executionName : string) : Request :=
  {| req_Method := MethodGet;
     req_URL := callbacksAPIBase +:+ "/" +:+ executionName +:+ "/callbacks";
     req_Body := None;
     req_ContentType := None |}.

(** * Sample inputs, for the worked examples *)

Module Sample.

Definition client : Client := {| Project := "p1"; Region := "us-central1" |}.

Definition name : string :=
  "projects/p1/locations/us-central1/workflows/get/executions/e1".

Definition execution (state : string) (endTime : option Z) (result : string)
  : Execution :=
  {| ex_Name := name; ex_State := state; ex_StartTime := Some (1000 * Second);
     ex_EndTime := endTime; ex_Result := result; ex_Error := None |}.

Definition active : Execution := execution "ACTIVE" None "".
Definition succeeded : Execution :=
  execution "SUCCEEDED" (Some (1007 * Second)) "{}".
Definition garbled : Execution :=
  execution "SUCCEEDED" (Some (1007 * Second)) "<html>".
Definition unspecified : Execution := execution "STATE_UNSPECIFIED" None "".

(** A decoder that knows two documents, the empty object and null, and
    rejects every other text. *)
Definition decode (s : string) : error + option (gmap string any) :=
  if String.eqb s "{}" then inr (Some ∅)
  else if String.eqb s "null" then inr None
  else inl (errorString "invalid character").

Definition valid (s : string) : bool :=
  String.eqb s "{}" || String.eqb s "null".

Definition encode (m : option (gmap string any)) : error + string :=
  match m with
  | None => inr "null"
  | Some m' =>
      if bool_decide (m' = ∅) then inr "{}"
      else inl (errorString "json: unsupported value")
  end.

Definition response (code : Z) (body : string) : Response :=
  {| resp_StatusCode := code; resp_Body := body; resp_ReadErr := None |}.

(** An environment from its scripted answers: the reads, the selects, the
    credential lookups, the HTTP round trips and the callback listing. *)
Definition env (gets : nat -> error + Execution) (sel : nat -> option error)
           (cred : nat -> option error) (do : nat -> Request -> error + Response)
           (cbs : string -> error + list (string * string)) : Env :=
  {| env_execNewClient := None;
     env_wfNewClient := None;
     env_CreateExecution := fun _ _ => inr active;
     env_GetExecution := fun n _ => gets n;
     env_select := sel;
     env_ListExecutions := fun _ _ => [];
     env_ListWorkflows := fun _ => [];
     env_DefaultClient := cred;
     env_NewRequest := fun _ _ => None;
     env_Do := do;
     json_Marshal := encode;
     json_Unmarshal := decode;
     json_Valid := valid;
     json_UnmarshalCallbacks := cbs;
     env_roundMsString := fun _ => "";
     env_printStatus := fun _ _ _ _ => None |}.

Definition noCancel : nat -> option error := fun _ => None.
Definition credOk : nat -> option error := fun _ => None.
Definition ok200 : nat -> Request -> error + Response :=
  fun _ _ => inr (response 200 "{}").
Definition noCallbacks : string -> error + list (string * string) :=
  fun _ => inr [].

(** Three ACTIVE observations, then SUCCEEDED. *)
Definition slow : Env :=
  env (fun n => if Nat.ltb n 3 then inr active else inr succeeded)
      noCancel credOk ok200 noCallbacks.

(** Two ACTIVE observations, then the transport fails. *)
Definition flaky : Env :=
  env (fun n => if Nat.ltb n 2 then inr active
                else inl (errorString "rpc error: code = Unavailable"))
      noCancel credOk ok200 noCallbacks.

(** Already SUCCEEDED at the first read. *)
Definition finished : Env :=
  env (fun _ => inr succeeded) noCancel credOk ok200 noCallbacks.

(** One ACTIVE observation, then a state outside the five-state model. *)
Definition odd : Env :=
  env (fun n => if Nat.ltb n 1 then inr active else inr unspecified)
      noCancel credOk ok200 noCallbacks.


(** SUCCEEDED with a result that is not JSON. *)
Definition broken : Env :=
  env (fun _ => inr garbled) noCancel credOk ok200 noCallbacks.



Definition callbackURL : string :=
  "https://workflowexecutions.googleapis.com/v1/projects/p1/locations/us-central1/workflows/get/executions/e1/callbacks/cb1".

Definition flags : ResumeFlags :=
  {| flag_project := "p1"; flag_region := "us-central1"; flag_output := "text";
     flag_data := ""; flag_wait := false |}.

(** An ACTIVE execution that is not waiting on any callback. *)
Definition blocked : Env :=
  env (fun _ => inr active) noCancel credOk
      (fun _ _ => inr (response 200 "{}")) noCallbacks.

End Sample.

(** * More of the client, and its callers *)

(** An event of the polling loop: a read or the end of a [select]. *)
Definition isPollEvent (name : string) (ev : Event) : Prop :=
  match ev with
  | EvGetExecution n => n = name
  | EvSleep _ | EvCtxDone _ => True
  | _ => False
  end.

(** [strings.Join] with a one-byte separator. *)
Fixpoint JoinStrings (elems : list string) (sep : ascii) : string :=
  match elems with
  | [] => EmptyString
  | [x] => x
  | x :: rest => x +:+ String sep (JoinStrings rest sep)
  end.

(** The workflow names on which the slice expression of [List] is out of
    range: longer than the parent path, shorter than the parent path plus
    ["/workflows/"]. *)
Definition sliceOutOfRange (c : Client) (wf : Workflow) : Prop :=
  (String.length (workflowParent c) < String.length (wf_Name wf)
   < String.length (workflowParent c) + String.length "/workflows/")%nat.

(** Sample inputs of the listing operations. *)
Module Listing.

Definition execution (id : string) (endTime : option Z) : Execution :=
  {| ex_Name := workflowName Sample.client "get" +:+ "/executions/" +:+ id;
     ex_State := "SUCCEEDED"; ex_StartTime := Some (1000 * Second);
     ex_EndTime := endTime; ex_Result := "{}"; ex_Error := None |}.

Definition workflow (name : string) : Workflow :=
  {| wf_Name := name; wf_State := "ACTIVE"; wf_RevisionId := "000001-a1b";
     wf_UpdateTime := Some (2000 * Second) |}.

(** An environment whose two listings answer with the given iterators. *)
Definition env (execs : list (error + Execution)) (wfs : list (error + Workflow))
  : Env :=
  {| env_execNewClient := None;
     env_wfNewClient := None;
     env_CreateExecution := fun _ _ => inr Sample.active;
     env_GetExecution := fun _ _ => inr Sample.active;
     env_select := Sample.noCancel;
     env_ListExecutions := fun _ _ => execs;
     env_ListWorkflows := fun _ => wfs;
     env_DefaultClient := Sample.credOk;
     env_NewRequest := fun _ _ => None;
     env_Do := Sample.ok200;
     json_Marshal := Sample.encode;
     json_Unmarshal := Sample.decode;
     json_Valid := Sample.valid;
     json_UnmarshalCallbacks := Sample.noCallbacks;
     env_roundMsString := fun d => Itoa (d / Millisecond) +:+ "ms";
     env_printStatus := fun _ _ _ _ => None |}.

Definition three : Env :=
  env [inr (execution "e3" None); inr (execution "e2" (Some (1004 * Second)));
       inl (errorString "rpc error: code = Unavailable")] [].

End Listing.

(** The number of times the client is released in a log. *)
Definition closes (evs : list Event) : nat :=
  length (List.filter (fun ev => match ev with EvClose => true | _ => false end)
                      evs).

(** Sample inputs of the commands. *)
Module Commands.

Definition cb1 : string := Sample.name +:+ "/callbacks/cb1".
Definition cb2 : string := Sample.name +:+ "/callbacks/cb2".

(** An ACTIVE execution with two pending callbacks. *)
Definition waiting : Env :=
  Sample.env (fun _ => inr Sample.active) Sample.noCancel Sample.credOk
             Sample.ok200 (fun _ => inr [(cb1, ""); (cb2, "PUT")]).

Definition badData : ResumeFlags :=
  {| flag_project := "p1"; flag_region := "us-central1"; flag_output := "text";
     flag_data := "{approved"; flag_wait := true |}.

End Commands.

(** The shape of a run of resume that ends with [out] after the events
    [evs]: what it requests, how often it reads, and the release of the
    client. *)
Definition resumeRunShape (env : Env) (flags : ResumeFlags)
           (workflow execID : string) (s : St) (out : Outcome)
           (evs : list Event) : Prop :=
  (requests evs = []
   \/ exists r,
       resumeObserved env flags workflow execID s = Some r
       /\ er_State r = "ACTIVE"
       /\ (requests evs = [listingRequest (er_Name r)]
           \/ exists cb rest body,
               resumeListed env flags workflow execID s = Some (cb :: rest)
               /\ requests evs = [listingRequest (er_Name r);
                                  triggerRequest (cb_URL cb) (cb_Method cb) body]))
  /\ ((reads evs <= 1)%nat
      \/ flag_wait flags = true
         /\ (out = StillWaiting \/ out = Returned None
             \/ exists e, out = Returned (Some (WaitFailed, e))
                          \/ out = Returned (Some (PrintFailed, e))))
  /\ (closes evs <= 1)%nat
  /\ (flag_project flags <> "" -> flag_region flags <> "" ->
      env_execNewClient env = None ->
      exists evs', evs = (evs' ++ [EvClose])%list /\ closes evs' = 0%nat).

(** ** Run (part_005) *)

Section MoreClient.

Variable env : Env.

(** [Run] returns the execution name, the record and the error; [None] is a
    wait that outlasts the fuel. *)
Definition Run (c : Client) (fuel : nat) (workflow : string)
           (args : option (gmap string any))
  : M (option (string * option ExecutionResult * option error)) :=
  r <~ Execute env c workflow args ;;
  match r with
  | inl err => ret (Some (EmptyString, None, Some err))
  | inr execName =>
      w <~ WaitForCompletion env c fuel execName ;;
      match w with
      | None => ret None
      | Some (inl err) => ret (Some (execName, None, Some err))
      | Some (inr result) => ret (Some (execName, Some result, None))
      end
  end.

End MoreClient.

(** ** The status command (pkg/ops/wf/status.go, [RunE] of [newStatusCmd]) *)

Definition set_Callbacks (cbs : list CallbackInfo) (r : ExecutionResult)
  : ExecutionResult :=
  {| er_Name := er_Name r; er_State := er_State r; er_Result := er_Result r;
     er_Error := er_Error r; er_Duration := er_Duration r;
     er_StartTime := er_StartTime r; er_EndTime := er_EndTime r;
     er_Callbacks := cbs |}.

Record StatusFlags : Type := {
  sflag_project : string;
  sflag_region : string;
  sflag_output : string;
  sflag_wait : bool
}.

Section Status.

Variable env : Env.

Definition printed (result : ExecutionResult) (workflow execID output : string)
  : M Outcome :=
  match env_printStatus env result workflow execID output with
  | Some err => fail PrintFailed err
  | None => ret (Returned None)
  end.

Definition statusBody (flags : StatusFlags) (fuel : nat) (client : Client)
           (workflow execID execName : string) : M Outcome :=
  if sflag_wait flags then
    _ <~ emit (EvStderr ("Waiting for execution " +:+ execID +:+ " to complete..."
                         +:+ nl)) ;;
    w <~ WaitForCompletion env client fuel execName ;;
    match w with
    | None => ret StillWaiting
    | Some (inl err) => fail WaitFailed (Errorf_w "waiting for execution" err)
    | Some (inr result) => printed result workflow execID (sflag_output flags)
    end
  else
    r <~ GetExecution env client execName ;;
    match r with
    | inl err => fail StatusReadFailed (Errorf_w "getting execution status" err)
    | inr result =>
        if String.eqb (er_State result) "ACTIVE" then
          l <~ ListCallbacks env client (er_Name result) ;;
          match l with
          | inr callbacks =>
              printed (set_Callbacks callbacks result) workflow execID
                      (sflag_output flags)
          | inl _ => printed result workflow execID (sflag_output flags)
          end
        else printed result workflow execID (sflag_output flags)
    end.

Definition statusRunE (flags : StatusFlags) (fuel : nat) (workflow execID : string)
  : M Outcome :=
  let project := sflag_project flags in
  let region := sflag_region flags in
  if String.eqb project "" then
    fail FlagRequired (errorString "--project is required (or set GCPHCP_PROJECT)")
  else if String.eqb region "" then
    fail FlagRequired (errorString "--region is required (or set GCPHCP_REGION)")
  else
    let execName :=
      "projects/" +:+ project +:+ "/locations/" +:+ region +:+
      "/workflows/" +:+ workflow +:+ "/executions/" +:+ execID in
    c <~ NewClient env project region ;;
    match c with
    | inl err => fail ClientCreationFailed (Errorf_w "creating client" err)
    | inr client =>
        out <~ statusBody flags fuel client workflow execID execName ;;
        _ <~ Close ;;
        ret out
    end.

End Status.

(** ** The run command (part_003, [RunE] of [newRunCmd]) *)

(** [path.Base]: the last element of a slash-separated path, trailing
    slashes removed first; "." for the empty path and "/" for a path of
    slashes only. *)
Fixpoint trimTrailingSlashes (p : string) : string :=
  match p with
  | EmptyString => EmptyString
  | String c p' =>
      match trimTrailingSlashes p' with
      | EmptyString => if Ascii.eqb c "/" then EmptyString else String c EmptyString
      | t => String c t
      end
  end.

Definition path_Base (p : string) : string :=
  if String.eqb p "" then "."
  else
    let p := trimTrailingSlashes p in
    let p := List.last (Split p "/"%char) EmptyString in
    if String.eqb p "" then "/" else p.

(** Lower-casing of the ASCII letters, byte by byte.  This is
    [strings.ToLower] on ASCII text; on other text Go also lowers letters
    beyond ASCII, none of which becomes a letter of "json" or "yaml", so
    [ParseFormat] below decides as the source does on every input. *)
Definition lowerByte (c : ascii) : ascii :=
  let n := nat_of_ascii c in
  if Nat.leb 65 n && Nat.leb n 90 then ascii_of_nat (n + 32) else c.

Fixpoint lowerASCII (s : string) : string :=
  match s with
  | EmptyString => EmptyString
  | String c s' => String (lowerByte c) (lowerASCII s')
  end.

Definition FormatText : string := "text".
Definition FormatJSON : string := "json".
Definition FormatYAML : string := "yaml".

Definition ParseFormat (s : string) : string :=
  let l := lowerASCII s in
  if String.eqb l "json" then FormatJSON
  else if String.eqb l "yaml" then FormatYAML
  else FormatText.

(** What the commands print through, outside the repository's control:
    [PrintJSON] encodes to standard output and returns the encoder's
    error. *)
Record Printer : Type := {
  PrintJSON : option (gmap string any) -> option error
}.

Definition PrintResult (pr : Printer) (format : string)
           (data : option (gmap string any)) : option error :=
  if String.eqb format FormatJSON then PrintJSON pr data else PrintJSON pr data.

Record RunFlags : Type := {
  rflag_project : string;
  rflag_region : string;
  rflag_output : string;
  rflag_data : string;
  rflag_async : bool
}.

(** How a command ends: it returns (nil or an error), the process exits
    with a status ([os.Exit], after which no deferred call runs), or the
    wait outlasts the fuel. *)
Inductive CmdOutcome : Type :=
| CmdReturned (err : option error)
| CmdExited (code : Z)
| CmdStillWaiting.

Section RunCommand.

Variable env : Env.
Variable pr : Printer.

Definition runBody (flags : RunFlags) (fuel : nat) (client : Client)
           (workflow : string) (parsedData : option (gmap string any))
  : M CmdOutcome :=
  _ <~ emit (EvStderr ("Executing workflow: " +:+ workflow +:+ nl)) ;;
  r <~ Execute env client workflow parsedData ;;
  match r with
  | inl err => ret (CmdReturned (Some (Errorf_w "executing workflow" err)))
  | inr execName =>
      let execID := path_Base execName in
      _ <~ emit (EvStderr ("Execution: " +:+ execID +:+ nl)) ;;
      if rflag_async flags then
        _ <~ emit (EvStderr ("Workflow started. Check status with:" +:+ nl)) ;;
        _ <~ emit (EvStderr ("  gcphcp ops wf status " +:+ workflow +:+ " "
                             +:+ execID +:+ nl)) ;;
        ret (CmdReturned None)
      else
        _ <~ emit (EvStderr ("Waiting for completion... (Ctrl+C to detach)"
                             +:+ nl)) ;;
        w <~ WaitForCompletion env client fuel execName ;;
        match w with
        | None => ret CmdStillWaiting
        | Some (inl err) =>
            ret (CmdReturned
                   (Some (wrapError
                            ("waiting for workflow: " +:+ Error err +:+ nl +:+ nl
                             +:+ "Check status with: gcphcp ops wf status "
                             +:+ workflow +:+ " " +:+ execID)
                            err)))
        | Some (inr result) =>
            _ <~ emit (EvStderr ("State: " +:+ er_State result +:+ "  Duration: "
                                 +:+ env_roundMsString env (er_Duration result)
                                 +:+ nl)) ;;
            if String.eqb (er_State result) "FAILED" then
              _ <~ emit (EvStderr ("Error: " +:+ er_Error result +:+ nl)) ;;
              ret (CmdExited 1)
            else
              let format := ParseFormat (rflag_output flags) in
              ret (CmdReturned (PrintResult pr format (er_Result result)))
        end
  end.

Definition runRunE (flags : RunFlags) (fuel : nat) (workflow : string)
  : M CmdOutcome :=
  let project := rflag_project flags in
  let region := rflag_region flags in
  if String.eqb project "" then
    ret (CmdReturned
           (Some (errorString "--project is required (or set GCPHCP_PROJECT)")))
  else if String.eqb region "" then
    ret (CmdReturned
           (Some (errorString "--region is required (or set GCPHCP_REGION)")))
  else
    let parsed : error + option (gmap string any) :=
      if negb (String.eqb (rflag_data flags) "") then
        json_Unmarshal env (rflag_data flags)
      else inr (Some ∅) in
    match parsed with
    | inl err => ret (CmdReturned (Some (Errorf_w "invalid --data JSON" err)))
    | inr parsedData =>
        c <~ NewClient env project region ;;
        match c with
        | inl err => ret (CmdReturned (Some (Errorf_w "creating client" err)))
        | inr client =>
            out <~ runBody flags fuel client workflow parsedData ;;
            match out with
            | CmdExited _ => ret out
            | _ => _ <~ Close ;; ret out
            end
        end
    end.

End RunCommand.

(** The number of executions created in a log. *)
Definition creates (evs : list Event) : nat :=
  length (List.filter
            (fun ev => match ev with EvCreateExecution _ _ => true | _ => false end)
            evs).

(** * Properties *)

(** ** Substrings *)

Lemma app_nil_s (t : string) : EmptyString +:+ t = t.
Proof. reflexivity. Qed.

Lemma app_cons_s (c : ascii) (s t : string) :
  String c s +:+ t = String c (s +:+ t).
Proof. reflexivity. Qed.

Lemma HasPrefix_app (p t : string) : HasPrefix (p +:+ t) p = true.
Proof.
  induction p as [|c p IH].
  - reflexivity.
  - rewrite app_cons_s. simpl. rewrite Ascii.eqb_refl. exact IH.
Qed.

Lemma HasPrefix_inv (s p : string) :
  HasPrefix s p = true -> exists t, s = p +:+ t.
Proof.
  revert s. induction p as [|c p IH]; intros s H.
  - exists s. reflexivity.
  - destruct s as [|d s]; simpl in H; [discriminate|].
    destruct (Ascii.eqb c d) eqn:E; [|discriminate].
    apply Ascii.eqb_eq in E. subst d.
    destruct (IH _ H) as [t ->]. exists t. reflexivity.
Qed.

Lemma app_assoc_s (a b c : string) : (a +:+ b) +:+ c = a +:+ (b +:+ c).
Proof.
  induction a as [|x a IH]; [reflexivity|].
  rewrite !app_cons_s. f_equal. exact IH.
Qed.

(** [Contains] is the substring relation. *)
Lemma Contains_spec (s substr : string) :
  Contains s substr = true <-> exists pre post, s = pre +:+ substr +:+ post.
Proof.
  split.
  - induction s as [|c s IH]; simpl; intros H.
    + rewrite orb_false_r in H. apply HasPrefix_inv in H as [t Ht].
      exists EmptyString, t. exact Ht.
    + apply orb_true_iff in H as [H|H].
      * apply HasPrefix_inv in H as [t Ht]. exists EmptyString, t. exact Ht.
      * destruct (IH H) as (pre & post & ->).
        exists (String c pre), post. reflexivity.
  - intros (pre & post & ->). induction pre as [|c pre IH].
    + rewrite app_nil_s. destruct (substr +:+ post) eqn:E.
      * destruct substr; [reflexivity | discriminate].
      * simpl. rewrite <- E, HasPrefix_app. reflexivity.
    + rewrite app_cons_s. simpl. rewrite IH. apply orb_true_r.
Qed.


(** ** The classifier *)

Lemma classify_Unclassified (msg : string) :
  Classifier.classify msg = Classifier.Unclassified <->
  forall c subs s,
    In (c, subs) Classifier.table -> In s subs -> Contains msg s = false.
Proof.
  unfold Classifier.classify. split.
  - intros H c subs s Hrow Hs.
    destruct (List.find (Classifier.matches msg) Classifier.table) as [row|] eqn:F.
    + apply List.find_some in F as [Hin _].
      simpl in Hin. intuition (subst; discriminate).
    + pose proof (List.find_none _ _ F _ Hrow) as Hm.
      unfold Classifier.matches in Hm. simpl in Hm.
      destruct (Contains msg s) eqn:E; [|reflexivity].
      assert (existsb (Contains msg) subs = true) as Hex
          by (apply existsb_exists; eauto).
      congruence.
  - intros H.
    destruct (List.find (Classifier.matches msg) Classifier.table) as [row|] eqn:F;
      [|reflexivity].
    apply List.find_some in F as [Hin Hm]. destruct row as [c subs].
    unfold Classifier.matches in Hm. simpl in Hm.
    apply existsb_exists in Hm as (s & Hs & Hc).
    rewrite (H c subs s Hin Hs) in Hc. discriminate.
Qed.

Lemma wrapAuthError_render (action : string) (err : error) :
  wrapAuthError action err
  = Classifier.render action (Classifier.classify (Error err)) err.
Proof.
  unfold wrapAuthError, Classifier.classify, Classifier.table, Classifier.matches,
    Errorf_w.
  simpl.
  destruct (Contains (Error err) "could not find default credentials");
    [reflexivity|].
  destruct (Contains (Error err) "token expired"); [reflexivity|].
  destruct (Contains (Error err) "oauth2: token expired"); [reflexivity|].
  destruct (Contains (Error err) "PermissionDenied"); [reflexivity|].
  destruct (Contains (Error err) "permission denied"); [reflexivity|].
  destruct (Contains (Error err) "403"); [reflexivity|].
  destruct (Contains (Error err) "NotFound"); [reflexivity|].
  destruct (Contains (Error err) "not found"); [reflexivity|].
  destruct (Contains (Error err) "Unauthenticated"); [reflexivity|].
  destruct (Contains (Error err) "401"); reflexivity.
Qed.

Example classify_priority :
  Classifier.classify "401 Unauthenticated: token expired, could not find default credentials"
  = Classifier.MissingCredentials.
Proof. reflexivity. Qed.

Example classify_not_found_before_401 :
  wrapAuthError "x" (errorString "rpc error: code = NotFound desc = 401")
  = errorString ("x" +:+ notFoundText).
Proof. reflexivity. Qed.

(** C3. The classifier is first-match over the priority table Missing,
    Expired, PermissionDenied, ResourceNotFound, Unauthenticated: the code's
    [switch] returns what the table's first matching row renders.  The
    message "could not find default credentials" is MissingCredentials and
    its remediation names the credential login; a message that contains no
    known substring is returned wrapped, the message being the action label,
    a colon and the original text. *)
Theorem wrapAuthError_first_match (action : string) (err : error) :
  wrapAuthError action err
  = Classifier.render action (Classifier.classify (Error err)) err
  /\ Classifier.classify "could not find default credentials"
     = Classifier.MissingCredentials
  /\ wrapAuthError action (errorString "could not find default credentials")
     = errorString (action +:+ noCredentialsText)
  /\ Contains noCredentialsText "gcloud auth application-default login" = true
  /\ ((forall c subs s, In (c, subs) Classifier.table -> In s subs ->
                        Contains (Error err) s = false) ->
      wrapAuthError action err = wrapError (action +:+ ": " +:+ Error err) err
      /\ Error (wrapAuthError action err) = action +:+ ": " +:+ Error err
      /\ Unwrap (wrapAuthError action err) = Some err).
Proof.
  split; [apply wrapAuthError_render|].
  split; [reflexivity|].
  split; [reflexivity|].
  split; [reflexivity|].
  intros H. apply classify_Unclassified in H.
  rewrite wrapAuthError_render, H. simpl. auto.
Qed.

Lemma wrapAuthError_first_match_witness :
  wrapAuthError "listing workflows" (errorString "connection reset by peer")
  = wrapError "listing workflows: connection reset by peer"
              (errorString "connection reset by peer").
Proof.
  apply (wrapAuthError_first_match "listing workflows"
           (errorString "connection reset by peer")).
  intros c subs s Hrow Hs. simpl in Hrow.
  repeat (destruct Hrow as [Hrow|Hrow];
          [inversion Hrow; subst; simpl in Hs;
           repeat (destruct Hs as [Hs|Hs]; [subst; reflexivity|]); contradiction|]).
  contradiction.
Defined.

(** ** The polling loop *)

Lemma GetExecution_unfold (env : Env) (c : Client) (name : string) (s : St) :
  GetExecution env c name s =
  (match env_GetExecution env (st_rpc s) name with
   | inl err => inl (wrapAuthError "getting execution status" err)
   | inr exec => inr (resultOf env exec)
   end, afterGet name s).
Proof.
  unfold GetExecution, bind, execClient_GetExecution, ret, afterGet, resultOf.
  destruct (env_GetExecution env (st_rpc s) name) as [err|exec]; [reflexivity|].
  f_equal. f_equal.
  destruct (ex_EndTime exec); simpl;
    destruct (String.eqb (ex_State exec) "SUCCEEDED");
    try destruct (json_Unmarshal env (ex_Result exec));
    try destruct (String.eqb (ex_State exec) "FAILED");
    try destruct (ex_Error exec); reflexivity.
Qed.

(** One iteration of the [for] loop. *)
Lemma waitLoop_unfold (env : Env) (f : nat) (name : string) (p : Z) (s : St) :
  waitLoop env (S f) name p s =
  match env_GetExecution env (st_rpc s) name with
  | inl err =>
      (Some (inl (wrapAuthError "checking execution status" err)), afterGet name s)
  | inr exec =>
      if nonTerminal (ex_State exec) then
        match env_select env (st_sel s) with
        | Some e => (Some (inl e), afterSelect (EvCtxDone p) (afterGet name s))
        | None =>
            waitLoop env f name (nextPollInterval p)
                     (afterSelect (EvSleep p) (afterGet name s))
        end
      else (Some (inr (resultOf env exec)), afterGet name s)
  end.
Proof.
  cbn [waitLoop].
  unfold bind at 1. unfold execClient_GetExecution at 1. fold (afterGet name s).
  destruct (env_GetExecution env (st_rpc s) name) as [err|exec]; [reflexivity|].
  unfold nonTerminal.
  destruct (String.eqb (ex_State exec) "ACTIVE") eqn:Ea;
    destruct (String.eqb (ex_State exec) "QUEUED") eqn:Eq; cbn [negb andb orb].
  1-3: unfold bind, select_Done_After; cbn [st_sel afterGet];
       destruct (env_select env (st_sel s)); reflexivity.
  unfold ret, resultOf. f_equal. f_equal. f_equal.
  destruct (ex_EndTime exec); simpl;
    destruct (String.eqb (ex_State exec) "SUCCEEDED");
    try destruct (json_Unmarshal env (ex_Result exec));
    try destruct (String.eqb (ex_State exec) "FAILED");
    try destruct (ex_Error exec); reflexivity.
Qed.

Lemma backoff_0 : backoff 0 = 500 * Millisecond.
Proof. reflexivity. Qed.

Lemma backoff_1 : backoff 1 = 1000 * Millisecond.
Proof. reflexivity. Qed.

Lemma backoff_cap (i : nat) : (2 <= i)%nat -> backoff i = 2000 * Millisecond.
Proof.
  intros H. unfold backoff.
  assert (2 ^ 2 <= 2 ^ Z.of_nat i) by (apply Z.pow_le_mono_r; lia).
  unfold Second, Millisecond in *. lia.
Qed.

Lemma nextPollInterval_backoff (j : nat) :
  nextPollInterval (backoff j) = backoff (S j).
Proof.
  destruct j as [|[|j]]; [reflexivity | reflexivity |].
  rewrite !backoff_cap by lia. reflexivity.
Qed.

Lemma St_eq (a b : St) :
  st_rpc a = st_rpc b -> st_sel a = st_sel b -> st_cred a = st_cred b ->
  st_http a = st_http b -> st_log a = st_log b -> a = b.
Proof. destruct a, b; simpl; intros; subst; reflexivity. Qed.

Lemma afterPolls_S (name : string) (j k : nat) (s : St) :
  afterPolls name (S j) k (afterSelect (EvSleep (backoff j)) (afterGet name s))
  = afterPolls name j (S k) s.
Proof.
  apply St_eq; simpl; try lia; try reflexivity.
  rewrite <- !app_assoc. reflexivity.
Qed.

Lemma polling_S (env : Env) (s : St) (name : string) (k : nat) (d : Z) :
  polling env s name (S k) ->
  polling env (afterSelect (EvSleep d) (afterGet name s)) name k.
Proof.
  intros H i Hi. specialize (H (S i) ltac:(lia)). simpl.
  replace (S (st_rpc s + i))%nat with (st_rpc s + S i)%nat by lia.
  replace (S (st_sel s + i))%nat with (st_sel s + S i)%nat by lia.
  exact H.
Qed.

(** [k] non-terminal observations cost [k] iterations and leave the loop at
    the interval [backoff (j + k)]. *)
Lemma waitLoop_polling (env : Env) (name : string) (k f j : nat) (s : St) :
  polling env s name k ->
  waitLoop env (k + f) name (backoff j) s
  = waitLoop env f name (backoff (j + k)) (afterPolls name j k s).
Proof.
  revert j s. induction k as [|k IH]; intros j s H.
  - replace (j + 0)%nat with j by lia. f_equal.
    apply St_eq; simpl; try lia; try reflexivity. now rewrite app_nil_r.
  - destruct (H 0%nat ltac:(lia)) as [(x & Hx & Hn) Hs].
    rewrite Nat.add_0_r in Hx, Hs.
    change (S k + f)%nat with (S (k + f)).
    rewrite waitLoop_unfold, Hx, Hn, Hs, nextPollInterval_backoff.
    rewrite IH by (eapply polling_S; eassumption).
    rewrite afterPolls_S. f_equal. f_equal. lia.
Qed.

Lemma timers_pollLog (name : string) (j k : nat) :
  timers (pollLog name j k) = List.map backoff (seq j k).
Proof.
  revert j. induction k as [|k IH]; intros j; [reflexivity|].
  simpl. now rewrite <- IH.
Qed.


Lemma reads_pollLog (name : string) (j k : nat) (rest : list Event) :
  reads (pollLog name j k ++ rest) = (k + reads rest)%nat.
Proof.
  revert j. induction k as [|k IH]; intros j; [reflexivity|].
  unfold reads in *. simpl. now rewrite IH.
Qed.

(** Whatever the environment does, the timers the loop arms are the
    backoff sequence, from the interval it was entered with. *)
Lemma waitLoop_timers (env : Env) (fuel : nat) (name : string) (j : nat) (s : St) :
  exists evs : list Event,
    st_log (snd (waitLoop env fuel name (backoff j) s)) = (st_log s ++ evs)%list
    /\ timers evs = List.map backoff (seq j (length (timers evs))).
Proof.
  revert j s. induction fuel as [|f IH]; intros j s.
  - exists []. simpl. now rewrite app_nil_r.
  - rewrite waitLoop_unfold.
    destruct (env_GetExecution env (st_rpc s) name) as [err|x].
    + exists [EvGetExecution name]. split; reflexivity.
    + destruct (nonTerminal (ex_State x)).
      * destruct (env_select env (st_sel s)) as [e|].
        -- exists [EvGetExecution name; EvCtxDone (backoff j)]. simpl.
           split; [now rewrite <- app_assoc | reflexivity].
        -- rewrite nextPollInterval_backoff.
           destruct (IH (S j) (afterSelect (EvSleep (backoff j)) (afterGet name s)))
             as (evs & Hlog & Ht).
           exists (EvGetExecution name :: EvSleep (backoff j) :: evs).
           split.
           ++ rewrite Hlog. simpl. now rewrite <- !app_assoc.
           ++ simpl. f_equal. exact Ht.
      * exists [EvGetExecution name]. split; reflexivity.
Qed.




Example slow_run_sleeps :
  sleeps (st_log (snd (WaitForCompletion Sample.slow Sample.client 8 Sample.name st0)))
  = [500 * Millisecond; 1000 * Millisecond; 2000 * Millisecond].
Proof. reflexivity. Qed.

(** C2. A transport error of [GetExecution] at any poll ends the wait at
    once: the classified error is returned, and the failed read is the last
    event of the run -- after [k] rounds of poll-and-sleep the run has made
    [k + 1] reads and [k] sleeps, no retry and no further poll. *)
Theorem WaitForCompletion_transport_error_aborts
        (env : Env) (c : Client) (name : string) (fuel k : nat) (s : St)
        (err : error) :
  polling env s name k ->
  env_GetExecution env (st_rpc s + k) name = inl err ->
  (k < fuel)%nat ->
  WaitForCompletion env c fuel name s
  = (Some (inl (wrapAuthError "checking execution status" err)),
     afterGet name (afterPolls name 0 k s))
  /\ st_log (afterGet name (afterPolls name 0 k s))
     = (st_log s ++ pollLog name 0 k ++ [EvGetExecution name])%list
  /\ reads (pollLog name 0 k ++ [EvGetExecution name]) = S k
  /\ st_rpc (afterGet name (afterPolls name 0 k s)) = (st_rpc s + k + 1)%nat.
Proof.
  intros Hp Herr Hk. split; [|split; [|split]].
  - unfold WaitForCompletion. change (500 * Millisecond) with (backoff 0).
    replace fuel with (k + S (fuel - S k))%nat by lia.
    rewrite (waitLoop_polling env name k _ 0 s Hp), waitLoop_unfold.
    cbn [afterPolls st_rpc]. rewrite Herr. reflexivity.
  - simpl. now rewrite <- app_assoc.
  - rewrite reads_pollLog. unfold reads. simpl. lia.
  - simpl. lia.
Qed.

Lemma polling_flaky_2 : polling Sample.flaky st0 Sample.name 2.
Proof.
  intros i Hi. destruct i as [|[|i]]; [| | lia];
    (split; [exists Sample.active; split; reflexivity | reflexivity]).
Defined.

Lemma WaitForCompletion_transport_error_aborts_witness :
  WaitForCompletion Sample.flaky Sample.client 9 Sample.name st0
  = (Some (inl (wrapAuthError "checking execution status"
                              (errorString "rpc error: code = Unavailable"))),
     afterGet Sample.name (afterPolls Sample.name 0 2 st0))
  /\ st_log (afterGet Sample.name (afterPolls Sample.name 0 2 st0))
     = (st_log st0 ++ pollLog Sample.name 0 2 ++ [EvGetExecution Sample.name])%list
  /\ reads (pollLog Sample.name 0 2 ++ [EvGetExecution Sample.name]) = 3%nat
  /\ st_rpc (afterGet Sample.name (afterPolls Sample.name 0 2 st0)) = 3%nat.
Proof.
  apply (WaitForCompletion_transport_error_aborts Sample.flaky Sample.client
           Sample.name 9 2 st0 (errorString "rpc error: code = Unavailable")
           polling_flaky_2).
  - reflexivity.
  - lia.
Defined.

Lemma polling_0 (env : Env) (s : St) (name : string) : polling env s name 0.
Proof. intros i Hi. lia. Qed.

Lemma afterPolls_0 (name : string) (j : nat) (s : St) : afterPolls name j 0 s = s.
Proof. apply St_eq; simpl; try lia; try reflexivity. apply app_nil_r. Qed.

(** What the loop does at the observation that follows [k] rounds of
    poll-and-sleep. *)
Lemma waitLoop_at_observation
      (env : Env) (name : string) (fuel k : nat) (s : St) (x : Execution) :
  polling env s name k ->
  env_GetExecution env (st_rpc s + k) name = inr x ->
  (k < fuel)%nat ->
  waitLoop env fuel name (backoff 0) s =
  let s' := afterGet name (afterPolls name 0 k s) in
  if nonTerminal (ex_State x) then
    match env_select env (st_sel s + k) with
    | Some e => (Some (inl e), afterSelect (EvCtxDone (backoff k)) s')
    | None => waitLoop env (fuel - S k) name (backoff (S k))
                       (afterSelect (EvSleep (backoff k)) s')
    end
  else (Some (inr (resultOf env x)), s').
Proof.
  intros Hp Hx Hk.
  replace fuel with (k + S (fuel - S k))%nat at 1 by lia.
  rewrite (waitLoop_polling env name k _ 0 s Hp), waitLoop_unfold.
  cbn [afterPolls st_rpc st_sel]. rewrite Hx, nextPollInterval_backoff.
  reflexivity.
Qed.

Lemma nonTerminal_false (state : string) :
  nonTerminal state = false <-> state <> "ACTIVE" /\ state <> "QUEUED".
Proof.
  unfold nonTerminal. rewrite orb_false_iff, !String.eqb_neq. reflexivity.
Qed.

Lemma nonTerminal_true (state : string) :
  nonTerminal state = true <-> state = "ACTIVE" \/ state = "QUEUED".
Proof.
  unfold nonTerminal. rewrite orb_true_iff, !String.eqb_eq. reflexivity.
Qed.

(** C5. When the first read already reports SUCCEEDED, FAILED or CANCELLED,
    the wait returns the record of that read -- the one [GetExecution]
    returns for it -- and the run is that single read: no sleep, no second
    round trip. *)
Theorem WaitForCompletion_first_read_terminal
        (env : Env) (c : Client) (name : string) (fuel : nat) (s : St)
        (x : Execution) :
  env_GetExecution env (st_rpc s) name = inr x ->
  ex_State x = "SUCCEEDED" \/ ex_State x = "FAILED" \/ ex_State x = "CANCELLED" ->
  (0 < fuel)%nat ->
  WaitForCompletion env c fuel name s = (Some (inr (resultOf env x)), afterGet name s)
  /\ GetExecution env c name s = (inr (resultOf env x), afterGet name s)
  /\ er_State (resultOf env x) = ex_State x
  /\ st_log (afterGet name s) = (st_log s ++ [EvGetExecution name])%list
  /\ st_rpc (afterGet name s) = S (st_rpc s)
  /\ st_sel (afterGet name s) = st_sel s.
Proof.
  intros Hx Hst Hf. split.
  - unfold WaitForCompletion. change (500 * Millisecond) with (backoff 0).
    rewrite (waitLoop_at_observation env name fuel 0 s x (polling_0 env s name));
      [| now rewrite Nat.add_0_r | exact Hf].
    cbn zeta. rewrite afterPolls_0.
    replace (nonTerminal (ex_State x)) with false; [reflexivity|].
    destruct Hst as [-> | [-> | ->]]; reflexivity.
  - split; [rewrite GetExecution_unfold, Hx; reflexivity|].
    repeat split; reflexivity.
Qed.

Lemma WaitForCompletion_first_read_terminal_witness :
  WaitForCompletion Sample.finished Sample.client 1 Sample.name st0
  = (Some (inr (resultOf Sample.finished Sample.succeeded)),
     afterGet Sample.name st0)
  /\ GetExecution Sample.finished Sample.client Sample.name st0
     = (inr (resultOf Sample.finished Sample.succeeded), afterGet Sample.name st0)
  /\ er_State (resultOf Sample.finished Sample.succeeded) = "SUCCEEDED"
  /\ st_log (afterGet Sample.name st0)
     = (st_log st0 ++ [EvGetExecution Sample.name])%list
  /\ st_rpc (afterGet Sample.name st0) = S (st_rpc st0)
  /\ st_sel (afterGet Sample.name st0) = st_sel st0.
Proof.
  apply (WaitForCompletion_first_read_terminal Sample.finished Sample.client
           Sample.name 1 st0 Sample.succeeded).
  - reflexivity.
  - left. reflexivity.
  - lia.
Defined.

(** C9. The poller's test for "terminal" is "neither ACTIVE nor QUEUED".
    At any observation, a state other than these two -- SUCCEEDED, FAILED,
    CANCELLED, but also STATE_UNSPECIFIED or anything else -- ends the wait
    with the record of that observation and nothing after the read; ACTIVE
    and QUEUED, and only they, send the loop into the next wait. *)
Theorem WaitForCompletion_terminality_test
        (env : Env) (c : Client) (name : string) (fuel k : nat) (s : St)
        (x : Execution) :
  polling env s name k ->
  env_GetExecution env (st_rpc s + k) name = inr x ->
  (k < fuel)%nat ->
  (ex_State x <> "ACTIVE" /\ ex_State x <> "QUEUED" ->
   WaitForCompletion env c fuel name s
   = (Some (inr (resultOf env x)), afterGet name (afterPolls name 0 k s))
   /\ er_State (resultOf env x) = ex_State x
   /\ st_log (afterGet name (afterPolls name 0 k s))
      = (st_log s ++ pollLog name 0 k ++ [EvGetExecution name])%list)
  /\ (ex_State x = "ACTIVE" \/ ex_State x = "QUEUED" ->
      exists (ev : Event) (rest : list Event),
        st_log (snd (WaitForCompletion env c fuel name s))
        = (st_log s ++ pollLog name 0 k ++ [EvGetExecution name] ++ ev :: rest)%list
        /\ (ev = EvSleep (backoff k) \/ ev = EvCtxDone (backoff k))).
Proof.
  intros Hp Hx Hk.
  unfold WaitForCompletion. change (500 * Millisecond) with (backoff 0).
  rewrite (waitLoop_at_observation env name fuel k s x Hp Hx Hk). cbn zeta.
  split.
  - intros Hn. apply nonTerminal_false in Hn. rewrite Hn.
    split; [reflexivity|]. split; [reflexivity|].
    simpl. now rewrite <- app_assoc.
  - intros Hn. apply nonTerminal_true in Hn. rewrite Hn.
    destruct (env_select env (st_sel s + k)) as [e|].
    + exists (EvCtxDone (backoff k)), []. split; [|now right].
      simpl. now rewrite <- !app_assoc.
    + destruct (waitLoop_timers env (fuel - S k) name (S k)
                  (afterSelect (EvSleep (backoff k))
                     (afterGet name (afterPolls name 0 k s))))
        as (rest & Hrest & _).
      exists (EvSleep (backoff k)), rest. split; [|now left].
      rewrite Hrest. simpl. now rewrite <- !app_assoc.
Qed.

Lemma polling_odd_1 : polling Sample.odd st0 Sample.name 1.
Proof.
  intros i Hi. destruct i as [|i]; [| lia].
  split; [exists Sample.active; split; reflexivity | reflexivity].
Defined.

Lemma WaitForCompletion_terminality_test_witness :
  WaitForCompletion Sample.odd Sample.client 5 Sample.name st0
  = (Some (inr (resultOf Sample.odd Sample.unspecified)),
     afterGet Sample.name (afterPolls Sample.name 0 1 st0))
  /\ er_State (resultOf Sample.odd Sample.unspecified) = "STATE_UNSPECIFIED"
  /\ st_log (afterGet Sample.name (afterPolls Sample.name 0 1 st0))
     = (st_log st0 ++ pollLog Sample.name 0 1 ++ [EvGetExecution Sample.name])%list.
Proof.
  apply (WaitForCompletion_terminality_test Sample.odd Sample.client Sample.name
           5 1 st0 Sample.unspecified polling_odd_1).
  - reflexivity.
  - lia.
  - split; discriminate.
Defined.

(** ** The record of an observation *)



Lemma Sub_saturates (t u : Z) : minDuration <= Sub t u <= maxDuration.
Proof.
  unfold Sub. cbn zeta.
  destruct (Z.ltb_spec (t - u) minDuration);
    [unfold minDuration, maxDuration; lia|].
  destruct (Z.ltb_spec maxDuration (t - u));
    [unfold minDuration, maxDuration in *; lia | lia].
Qed.




Example slow_run_duration :
  er_Duration (resultOf Sample.slow Sample.succeeded) = 7 * Second.
Proof. reflexivity. Qed.

Example saturated_duration : Sub (2 ^ 63) (- 5) = maxDuration.
Proof. reflexivity. Qed.

(** C10. A SUCCEEDED execution whose result text is not valid JSON is not an
    error, for [GetExecution] and for [WaitForCompletion] alike: both return
    the record whose result payload is the one-entry map from "raw" to the
    original text. *)
Theorem invalid_result_kept_raw
        (env : Env) (c : Client) (name : string) (fuel k : nat) (s : St)
        (x : Execution) :
  json_sound env ->
  polling env s name k ->
  env_GetExecution env (st_rpc s + k) name = inr x ->
  ex_State x = "SUCCEEDED" ->
  json_Valid env (ex_Result x) = false ->
  (k < fuel)%nat ->
  exists r,
    fst (WaitForCompletion env c fuel name s) = Some (inr r)
    /\ fst (GetExecution env c name (afterPolls name 0 k s)) = inr r
    /\ er_State r = "SUCCEEDED"
    /\ er_Result r = Some {[ "raw" := anyString (ex_Result x) ]}.
Proof.
  intros Hjson Hp Hx Hst Hinv Hk.
  exists (resultOf env x). split; [|split; [|split]].
  - unfold WaitForCompletion. change (500 * Millisecond) with (backoff 0).
    rewrite (waitLoop_at_observation env name fuel k s x Hp Hx Hk). cbn zeta.
    rewrite Hst. reflexivity.
  - rewrite GetExecution_unfold. cbn [afterPolls st_rpc fst]. now rewrite Hx.
  - exact Hst.
  - unfold resultOf. cbn [er_Result]. rewrite Hst.
    destruct (Hjson _ Hinv) as [e ->]. reflexivity.
Qed.

Lemma json_sound_sample gets sel cred do cbs :
  json_sound (Sample.env gets sel cred do cbs).
Proof.
  intros s H. simpl in *. unfold Sample.valid in H. unfold Sample.decode.
  apply orb_false_iff in H as [-> ->]. eauto.
Defined.

Lemma invalid_result_kept_raw_witness :
  exists r,
    fst (WaitForCompletion Sample.broken Sample.client 1 Sample.name st0)
    = Some (inr r)
    /\ fst (GetExecution Sample.broken Sample.client Sample.name
                         (afterPolls Sample.name 0 0 st0)) = inr r
    /\ er_State r = "SUCCEEDED"
    /\ er_Result r = Some {[ "raw" := anyString "<html>" ]}.
Proof.
  apply (invalid_result_kept_raw Sample.broken Sample.client Sample.name 1 0 st0
           Sample.garbled).
  - apply json_sound_sample.
  - intros i Hi. lia.
  - reflexivity.
  - reflexivity.
  - reflexivity.
  - lia.
Defined.

(** ** Which errors are classified *)








(** ** TriggerCallback *)




(** ** The resume command *)

Ltac case_step :=
  match goal with
  | |- context [match ?x with _ => _ end] =>
      lazymatch x with
      | context [match _ with _ => _ end] => fail
      | _ => destruct x eqn:?
      end
  end.

(** A listing that returns a list has made the credential lookup and the
    one GET of the callbacks sub-resource, nothing else. *)
Lemma ListCallbacks_listing_state
      (env : Env) (c : Client) (name : string) (s : St) (l : list CallbackInfo) :
  fst (ListCallbacks env c name s) = inr l ->
  snd (ListCallbacks env c name s)
  = {| st_rpc := st_rpc s; st_sel := st_sel s; st_cred := S (st_cred s);
       st_http := S (st_http s);
       st_log := st_log s ++ [EvDefaultClient; EvHTTP (listingRequest name)] |}.
Proof.
  unfold ListCallbacks, bind, ret, google_DefaultClient, http_NewRequest,
    httpClient_Do, listingRequest.
  cbn [st_http st_cred st_log].
  repeat (case_step; cbn beta iota); cbn [fst snd st_log]; try discriminate.
  intros _. simpl. now rewrite <- app_assoc.
Qed.

Ltac enter_RunE flags workflow execID :=
  unfold resumeListed, resumeObserved, RunE;
  fold (resumeExecName flags workflow execID).

Lemma RunE_unexpected_inv
      (env : Env) (flags : ResumeFlags) (fuel : nat) (workflow execID : string)
      (s : St) (e : error) :
  fst (RunE env flags fuel workflow execID s)
  = Returned (Some (UnexpectedCallbackState, e)) ->
  exists r, resumeObserved env flags workflow execID s = Some r
            /\ er_State r <> "ACTIVE".
Proof.
  enter_RunE flags workflow execID.
  destruct (String.eqb (flag_project flags) "") eqn:Hp; [discriminate|].
  destruct (String.eqb (flag_region flags) "") eqn:Hr; [discriminate|].
  unfold NewClient.
  destruct (env_execNewClient env); [discriminate|].
  destruct (env_wfNewClient env); [discriminate|].
  unfold bind at 1. unfold ret at 1. unfold bind at 1.
  unfold resumeBody. unfold bind at 1. rewrite GetExecution_unfold.
  destruct (env_GetExecution env (st_rpc s) _ ) as [err|x]; [discriminate|].
  destruct (String.eqb (er_State (resultOf env x)) "ACTIVE") eqn:Hst; cbn [negb].
  - unfold fail, bind, ret, emit, Close.
    repeat (case_step; cbn beta iota); cbn [fst]; discriminate.
  - intros _. exists (resultOf env x). split; [reflexivity|].
    now apply String.eqb_neq.
Qed.

Lemma RunE_no_callback_inv
      (env : Env) (flags : ResumeFlags) (fuel : nat) (workflow execID : string)
      (s : St) (e : error) :
  fst (RunE env flags fuel workflow execID s)
  = Returned (Some (NoCompatibleCallback, e)) ->
  exists r, resumeObserved env flags workflow execID s = Some r
            /\ er_State r = "ACTIVE"
            /\ resumeListed env flags workflow execID s = Some [].
Proof.
  enter_RunE flags workflow execID.
  destruct (String.eqb (flag_project flags) "") eqn:Hp; [discriminate|].
  destruct (String.eqb (flag_region flags) "") eqn:Hr; [discriminate|].
  unfold NewClient.
  destruct (env_execNewClient env); [discriminate|].
  destruct (env_wfNewClient env); [discriminate|].
  unfold bind at 1. unfold ret at 1. unfold bind at 1.
  unfold resumeBody. unfold bind at 1. rewrite GetExecution_unfold.
  destruct (env_GetExecution env (st_rpc s) _ ) as [err|x]; [discriminate|].
  destruct (String.eqb (er_State (resultOf env x)) "ACTIVE") eqn:Hst; cbn [negb];
    [|discriminate].
  apply String.eqb_eq in Hst. unfold bind at 1.
  destruct (ListCallbacks env _ _ _) as [[err|[|cb cbs]] s1] eqn:Hl.
  - discriminate.
  - intros _. exists (resultOf env x). auto.
  - unfold fail, bind, ret, emit, Close.
    repeat (case_step; cbn beta iota); cbn [fst]; discriminate.
Qed.

Lemma RunE_unexpected
      (env : Env) (flags : ResumeFlags) (fuel : nat) (workflow execID : string)
      (s : St) (r : ExecutionResult) :
  resumeObserved env flags workflow execID s = Some r ->
  er_State r <> "ACTIVE" ->
  RunE env flags fuel workflow execID s
  = (Returned (Some (UnexpectedCallbackState,
                     errorString ("execution is " +:+ er_State r +:+
                                  ", not waiting on a callback"))),
     {| st_rpc := S (st_rpc s); st_sel := st_sel s; st_cred := st_cred s;
        st_http := st_http s;
        st_log := st_log s ++ [EvGetExecution (resumeExecName flags workflow execID);
                               EvClose] |}).
Proof.
  enter_RunE flags workflow execID.
  destruct (String.eqb (flag_project flags) "") eqn:Hp; [discriminate|].
  destruct (String.eqb (flag_region flags) "") eqn:Hr; [discriminate|].
  unfold NewClient.
  destruct (env_execNewClient env); [discriminate|].
  destruct (env_wfNewClient env); [discriminate|].
  unfold bind at 1. unfold ret at 1. unfold bind at 1.
  unfold resumeBody. unfold bind at 1. rewrite GetExecution_unfold.
  destruct (env_GetExecution env (st_rpc s) _ ) as [err|x]; [discriminate|].
  intros Hr' Hst. inversion Hr'; subst r.
  apply String.eqb_neq in Hst. rewrite Hst. cbn [negb].
  unfold fail, bind, ret, emit, Close. cbn. now rewrite <- app_assoc.
Qed.

Lemma RunE_no_callback
      (env : Env) (flags : ResumeFlags) (fuel : nat) (workflow execID : string)
      (s : St) (r : ExecutionResult) :
  resumeObserved env flags workflow execID s = Some r ->
  er_State r = "ACTIVE" ->
  resumeListed env flags workflow execID s = Some [] ->
  RunE env flags fuel workflow execID s
  = (Returned (Some (NoCompatibleCallback,
                     errorString "execution is ACTIVE but has no pending callbacks")),
     {| st_rpc := S (st_rpc s); st_sel := st_sel s; st_cred := S (st_cred s);
        st_http := S (st_http s);
        st_log := st_log s ++ [EvGetExecution (resumeExecName flags workflow execID);
                               EvDefaultClient; EvHTTP (listingRequest (er_Name r));
                               EvClose] |}).
Proof.
  enter_RunE flags workflow execID.
  destruct (String.eqb (flag_project flags) "") eqn:Hp; [discriminate|].
  destruct (String.eqb (flag_region flags) "") eqn:Hr; [discriminate|].
  unfold NewClient.
  destruct (env_execNewClient env); [discriminate|].
  destruct (env_wfNewClient env); [discriminate|].
  unfold bind at 1. unfold ret at 1. unfold bind at 1.
  unfold resumeBody. unfold bind at 1. rewrite GetExecution_unfold.
  destruct (env_GetExecution env (st_rpc s) _ ) as [err|x]; [discriminate|].
  intros Hr' Hst. inversion Hr'; subst r.
  rewrite Hst, String.eqb_refl. cbn [negb]. unfold bind at 1.
  pose proof (ListCallbacks_listing_state env
                {| Project := flag_project flags; Region := flag_region flags |}
                (er_Name (resultOf env x))
                (afterGet (resumeExecName flags workflow execID) s)) as Hstate.
  destruct (ListCallbacks env _ _ _) as [[err|l] s1] eqn:Hl; [discriminate|].
  cbn [fst snd] in *. intros Hl'. inversion Hl'; subst l.
  unfold fail, bind, ret, emit, Close. simpl.
  rewrite (Hstate [] eq_refl). simpl. now rewrite <- !app_assoc.
Qed.

(** C7. [resume] fails with UnexpectedCallbackState exactly when the state
    it observes is not ACTIVE, and with NoCompatibleCallback exactly when
    the observed state is ACTIVE and [ListCallbacks] returns no callback.
    In the first case the run is the status read alone, in the second the
    status read, the credential lookup and the GET of the callback list:
    no callback is triggered in either. *)
Theorem resume_callback_state_failures
        (env : Env) (flags : ResumeFlags) (fuel : nat) (workflow execID : string)
        (s : St) :
  let out := RunE env flags fuel workflow execID s in
  let execName := resumeExecName flags workflow execID in
  ((exists e, fst out = Returned (Some (UnexpectedCallbackState, e)))
   <-> (exists r, resumeObserved env flags workflow execID s = Some r
                  /\ er_State r <> "ACTIVE"))
  /\ ((exists e, fst out = Returned (Some (NoCompatibleCallback, e)))
      <-> (exists r, resumeObserved env flags workflow execID s = Some r
                     /\ er_State r = "ACTIVE"
                     /\ resumeListed env flags workflow execID s = Some []))
  /\ (forall r,
         resumeObserved env flags workflow execID s = Some r ->
         er_State r <> "ACTIVE" ->
         fst out
         = Returned (Some (UnexpectedCallbackState,
                           errorString ("execution is " +:+ er_State r +:+
                                        ", not waiting on a callback")))
         /\ st_log (snd out) = (st_log s ++ [EvGetExecution execName; EvClose])%list
         /\ requests [EvGetExecution execName; EvClose] = [])
  /\ (forall r,
         resumeObserved env flags workflow execID s = Some r ->
         er_State r = "ACTIVE" ->
         resumeListed env flags workflow execID s = Some [] ->
         fst out
         = Returned (Some (NoCompatibleCallback,
                           errorString
                             "execution is ACTIVE but has no pending callbacks"))
         /\ st_log (snd out)
            = (st_log s ++ [EvGetExecution execName; EvDefaultClient;
                            EvHTTP (listingRequest (er_Name r)); EvClose])%list
         /\ requests [EvGetExecution execName; EvDefaultClient;
                      EvHTTP (listingRequest (er_Name r)); EvClose]
            = [listingRequest (er_Name r)]).
Proof.
  cbn zeta. split; [|split; [|split]].
  - split.
    + intros [e He]. eapply RunE_unexpected_inv; eassumption.
    + intros (r & Hr & Hst).
      rewrite (RunE_unexpected env flags fuel workflow execID s r Hr Hst). eauto.
  - split.
    + intros [e He]. eapply RunE_no_callback_inv; eassumption.
    + intros (r & Hr & Hst & Hl).
      rewrite (RunE_no_callback env flags fuel workflow execID s r Hr Hst Hl).
      eauto.
  - intros r Hr Hst.
    rewrite (RunE_unexpected env flags fuel workflow execID s r Hr Hst).
    repeat split; reflexivity.
  - intros r Hr Hst Hl.
    rewrite (RunE_no_callback env flags fuel workflow execID s r Hr Hst Hl).
    repeat split; reflexivity.
Qed.

Lemma resume_callback_state_failures_witness :
  fst (RunE Sample.finished Sample.flags 0 "get" "e1" st0)
  = Returned (Some (UnexpectedCallbackState,
                    errorString "execution is SUCCEEDED, not waiting on a callback"))
  /\ st_log (snd (RunE Sample.finished Sample.flags 0 "get" "e1" st0))
     = (st_log st0 ++ [EvGetExecution Sample.name; EvClose])%list
  /\ requests [EvGetExecution Sample.name; EvClose] = [].
Proof.
  apply (proj1 (proj2 (proj2 (resume_callback_state_failures
                                Sample.finished Sample.flags 0 "get" "e1" st0)))
               (resultOf Sample.finished Sample.succeeded)).
  - reflexivity.
  - discriminate.
Defined.

Example resume_blocked :
  fst (RunE Sample.blocked Sample.flags 0 "get" "e1" st0)
  = Returned (Some (NoCompatibleCallback,
                    errorString "execution is ACTIVE but has no pending callbacks"))
  /\ requests (st_log (snd (RunE Sample.blocked Sample.flags 0 "get" "e1" st0)))
     = [listingRequest Sample.name].
Proof. split; reflexivity. Qed.

(** * Further properties *)

(** ** What the poller returns, and what it does on the way *)

Lemma waitLoop_outcome
      (env : Env) (fuel : nat) (name : string) (p : Z) (s : St)
      (out : error + ExecutionResult) :
  fst (waitLoop env fuel name p s) = Some out ->
  match out with
  | inr r =>
      exists i x, env_GetExecution env i name = inr x
                  /\ nonTerminal (ex_State x) = false
                  /\ r = resultOf env x
  | inl e =>
      (exists i raw, env_GetExecution env i name = inl raw
                     /\ e = wrapAuthError "checking execution status" raw)
      \/ (exists j, env_select env j = Some e)
  end.
Proof.
  revert p s. induction fuel as [|f IH]; intros p s H; [discriminate|].
  rewrite waitLoop_unfold in H.
  destruct (env_GetExecution env (st_rpc s) name) as [raw|x] eqn:Hx.
  - inversion H. left. eauto.
  - destruct (nonTerminal (ex_State x)) eqn:Hn.
    + destruct (env_select env (st_sel s)) as [e|] eqn:Hs.
      * inversion H. right. eauto.
      * eapply IH; eassumption.
    + inversion H. eauto.
Qed.

(** X1. Whatever the transport and the context do, a wait that returns
    returns one of three things: the record of an observation whose state is
    neither ACTIVE nor QUEUED, the classified error of a failed read, or the
    context's own error, unchanged.  It never returns a record that is still
    ACTIVE or QUEUED. *)
Theorem WaitForCompletion_outcomes
        (env : Env) (c : Client) (fuel : nat) (name : string) (s : St)
        (out : error + ExecutionResult) :
  fst (WaitForCompletion env c fuel name s) = Some out ->
  match out with
  | inr r =>
      er_State r <> "ACTIVE" /\ er_State r <> "QUEUED"
      /\ exists i x, env_GetExecution env i name = inr x /\ r = resultOf env x
  | inl e =>
      (exists i raw, env_GetExecution env i name = inl raw
                     /\ e = wrapAuthError "checking execution status" raw)
      \/ (exists j, env_select env j = Some e)
  end.
Proof.
  intros H. apply waitLoop_outcome in H. destruct out as [e|r]; [exact H|].
  destruct H as (i & x & Hx & Hn & ->).
  apply nonTerminal_false in Hn as [Ha Hq]. eauto 7.
Qed.

Lemma WaitForCompletion_outcomes_witness :
  er_State (resultOf Sample.slow Sample.succeeded) <> "ACTIVE"
  /\ er_State (resultOf Sample.slow Sample.succeeded) <> "QUEUED"
  /\ exists i x, env_GetExecution Sample.slow i Sample.name = inr x
                 /\ resultOf Sample.slow Sample.succeeded = resultOf Sample.slow x.
Proof.
  apply (WaitForCompletion_outcomes Sample.slow Sample.client 8 Sample.name st0
           (inr (resultOf Sample.slow Sample.succeeded))).
  reflexivity.
Defined.

(** X2. When the context is done at the wait that follows a non-terminal
    observation, the wait returns the context's error as it is -- it does not
    pass through the classifier -- and the run ends there: one read per
    round, and the last timer armed is the one of that round. *)
Theorem WaitForCompletion_cancelled
        (env : Env) (c : Client) (name : string) (fuel k : nat) (s : St)
        (x : Execution) (ctxErr : error) :
  polling env s name k ->
  env_GetExecution env (st_rpc s + k) name = inr x ->
  nonTerminal (ex_State x) = true ->
  env_select env (st_sel s + k) = Some ctxErr ->
  (k < fuel)%nat ->
  WaitForCompletion env c fuel name s
  = (Some (inl ctxErr),
     afterSelect (EvCtxDone (backoff k)) (afterGet name (afterPolls name 0 k s)))
  /\ st_log (afterSelect (EvCtxDone (backoff k))
                         (afterGet name (afterPolls name 0 k s)))
     = (st_log s ++ pollLog name 0 k
          ++ [EvGetExecution name; EvCtxDone (backoff k)])%list.
Proof.
  intros Hp Hx Hn Hs Hk. split.
  - unfold WaitForCompletion. change (500 * Millisecond) with (backoff 0).
    rewrite (waitLoop_at_observation env name fuel k s x Hp Hx Hk). cbn zeta.
    now rewrite Hn, Hs.
  - simpl. now rewrite <- !app_assoc.
Qed.

Lemma WaitForCompletion_cancelled_witness :
  WaitForCompletion
    (Sample.env (fun _ => inr Sample.active)
                (fun n => if Nat.ltb n 2 then None
                          else Some (errorString "context deadline exceeded"))
                Sample.credOk Sample.ok200 Sample.noCallbacks)
    Sample.client 7 Sample.name st0
  = (Some (inl (errorString "context deadline exceeded")),
     afterSelect (EvCtxDone (backoff 2))
                 (afterGet Sample.name (afterPolls Sample.name 0 2 st0)))
  /\ st_log (afterSelect (EvCtxDone (backoff 2))
                         (afterGet Sample.name (afterPolls Sample.name 0 2 st0)))
     = (st_log st0 ++ pollLog Sample.name 0 2
          ++ [EvGetExecution Sample.name; EvCtxDone (backoff 2)])%list.
Proof.
  apply (WaitForCompletion_cancelled _ Sample.client Sample.name 7 2 st0
           Sample.active (errorString "context deadline exceeded")).
  - intros i Hi. destruct i as [|[|i]]; [| | lia];
      (split; [exists Sample.active; split; reflexivity | reflexivity]).
  - reflexivity.
  - reflexivity.
  - reflexivity.
  - lia.
Defined.

Lemma reads_app (a b : list Event) : reads (a ++ b) = (reads a + reads b)%nat.
Proof. unfold reads. now rewrite List.filter_app, length_app. Qed.

Lemma sleeps_app (a b : list Event) : sleeps (a ++ b) = (sleeps a ++ sleeps b)%list.
Proof. unfold sleeps. apply flat_map_app. Qed.

Lemma requests_app (a b : list Event) :
  requests (a ++ b) = (requests a ++ requests b)%list.
Proof. unfold requests. apply flat_map_app. Qed.

Ltac poll_side :=
  first [ reflexivity
        | lia
        | unfold reads; simpl; lia
        | repeat (constructor; simpl; auto) ].

(** The events of a run of the loop, whatever its interval. *)
Lemma waitLoop_trace
      (env : Env) (fuel : nat) (name : string) (p : Z) (s : St) :
  exists evs : list Event,
    st_log (snd (waitLoop env fuel name p s)) = (st_log s ++ evs)%list
    /\ Forall (isPollEvent name) evs
    /\ st_cred (snd (waitLoop env fuel name p s)) = st_cred s
    /\ st_http (snd (waitLoop env fuel name p s)) = st_http s
    /\ st_rpc (snd (waitLoop env fuel name p s)) = (st_rpc s + reads evs)%nat
    /\ reads evs
       = match fst (waitLoop env fuel name p s) with
         | Some _ => S (length (sleeps evs))
         | None => length (sleeps evs)
         end.
Proof.
  revert p s. induction fuel as [|f IH]; intros p s.
  - exists []. simpl. rewrite app_nil_r. repeat split; auto.
  - rewrite waitLoop_unfold.
    destruct (env_GetExecution env (st_rpc s) name) as [err|x].
    + exists [EvGetExecution name]. simpl.
      repeat split; poll_side.
    + destruct (nonTerminal (ex_State x)).
      * destruct (env_select env (st_sel s)) as [e|].
        -- exists [EvGetExecution name; EvCtxDone p]. simpl.
           rewrite <- app_assoc.
           repeat split; poll_side.
        -- destruct (IH (nextPollInterval p)
                        (afterSelect (EvSleep p) (afterGet name s)))
             as (evs & Hlog & Hall & Hc & Hh & Hr & Hn).
           exists (EvGetExecution name :: EvSleep p :: evs).
           rewrite Hlog, Hc, Hh, Hr.
           split; [simpl; now rewrite <- !app_assoc|].
           split; [repeat (constructor; simpl; auto)|].
           split; [reflexivity|]. split; [reflexivity|].
           change (EvGetExecution name :: EvSleep p :: evs)
             with ([EvGetExecution name; EvSleep p] ++ evs)%list.
           rewrite reads_app, sleeps_app, length_app.
           change (reads [EvGetExecution name; EvSleep p]) with 1%nat.
           change (length (sleeps [EvGetExecution name; EvSleep p])) with 1%nat.
           split; [simpl; lia|].
           rewrite Hn. destruct (fst _); simpl; lia.
      * exists [EvGetExecution name]. simpl.
        repeat split; poll_side.
Qed.

(** X3. A run of the poller only reads the execution it was given and
    waits: it makes no HTTP request and no credential lookup, and when it
    returns it has made exactly one read more than it has slept -- polls and
    sleeps alternate, starting and ending with a poll. *)
Theorem WaitForCompletion_polls_and_sleeps_alternate
        (env : Env) (c : Client) (fuel : nat) (name : string) (s : St)
        (out : error + ExecutionResult) :
  fst (WaitForCompletion env c fuel name s) = Some out ->
  exists evs : list Event,
    st_log (snd (WaitForCompletion env c fuel name s)) = (st_log s ++ evs)%list
    /\ Forall (isPollEvent name) evs
    /\ requests evs = []
    /\ st_cred (snd (WaitForCompletion env c fuel name s)) = st_cred s
    /\ st_http (snd (WaitForCompletion env c fuel name s)) = st_http s
    /\ reads evs = S (length (sleeps evs)).
Proof.
  intros H. unfold WaitForCompletion in *.
  destruct (waitLoop_trace env fuel name (500 * Millisecond) s)
    as (evs & Hlog & Hall & Hc & Hh & _ & Hn).
  exists evs. rewrite H in Hn. repeat split; auto.
  clear -Hall. induction Hall as [|ev evs Hev _ IH]; [reflexivity|].
  unfold requests in *. simpl. rewrite IH.
  destruct ev; simpl in Hev; try contradiction; reflexivity.
Qed.

Lemma WaitForCompletion_polls_and_sleeps_alternate_witness :
  exists evs : list Event,
    st_log (snd (WaitForCompletion Sample.slow Sample.client 8 Sample.name st0))
    = (st_log st0 ++ evs)%list
    /\ Forall (isPollEvent Sample.name) evs
    /\ requests evs = []
    /\ st_cred (snd (WaitForCompletion Sample.slow Sample.client 8 Sample.name st0))
       = st_cred st0
    /\ st_http (snd (WaitForCompletion Sample.slow Sample.client 8 Sample.name st0))
       = st_http st0
    /\ reads evs = S (length (sleeps evs)).
Proof.
  apply (WaitForCompletion_polls_and_sleeps_alternate Sample.slow Sample.client 8
           Sample.name st0 (inr (resultOf Sample.slow Sample.succeeded))).
  reflexivity.
Defined.

(** ** Listing executions *)

Lemma limit_reached (limit : Z) (j : nat) :
  (1 <= j)%nat ->
  Z.leb limit (Z.of_nat j) = true <-> (Z.to_nat (Z.max 1 limit) <= j)%nat.
Proof. intros Hj. rewrite Z.leb_le. lia. Qed.

Lemma listExecutionsLoop_ok
      (env : Env) (workflow : string) (limit : Z)
      (it : list (error + Execution)) (acc : list ExecutionInfo)
      (xs : list Execution) :
  (length acc < Z.to_nat (Z.max 1 limit))%nat ->
  firstn (Z.to_nat (Z.max 1 limit) - length acc) it = List.map inr xs ->
  listExecutionsLoop env it workflow limit acc
  = inr (acc ++ List.map (executionInfo env) xs)%list.
Proof.
  set (m := Z.to_nat (Z.max 1 limit)).
  revert acc xs. induction it as [|[raw|x] it IH]; intros acc xs Hacc Hfirst.
  - rewrite firstn_nil in Hfirst. destruct xs; [|discriminate].
    simpl. now rewrite app_nil_r.
  - destruct (m - length acc)%nat eqn:E; [lia|].
    destruct xs; discriminate.
  - destruct (m - length acc)%nat as [|n] eqn:E; [lia|].
    simpl in Hfirst. destruct xs as [|x' xs]; [discriminate|].
    inversion Hfirst; subst x'. cbn [listExecutionsLoop].
    destruct (Z.leb limit _) eqn:Hstop.
    + apply limit_reached in Hstop; [|rewrite length_app; simpl; lia].
      fold m in Hstop. rewrite length_app in Hstop. simpl in Hstop.
      assert (n = 0%nat) by lia. subst n. simpl in H1.
      destruct xs; [reflexivity | discriminate].
    + assert (~ (m <= length (acc ++ [executionInfo env x]))%nat) as Hlt.
      { intros Hle. apply limit_reached in Hle;
          [congruence | rewrite length_app; simpl; lia]. }
      rewrite (IH _ xs); [now rewrite <- app_assoc | lia |].
      rewrite length_app in *. simpl in *.
      replace (m - (length acc + 1))%nat with n by lia. exact H1.
Qed.

Lemma listExecutionsLoop_fails
      (env : Env) (workflow : string) (limit : Z)
      (xs : list Execution) (raw : error) (rest : list (error + Execution))
      (acc : list ExecutionInfo) :
  (length acc + length xs < Z.to_nat (Z.max 1 limit))%nat ->
  listExecutionsLoop env (List.map inr xs ++ inl raw :: rest) workflow limit acc
  = inl (wrapAuthError ("listing executions for '" +:+ workflow +:+ "'") raw).
Proof.
  revert acc. induction xs as [|x xs IH]; intros acc Hlen; [reflexivity|].
  cbn [List.map app listExecutionsLoop].
  destruct (Z.leb limit _) eqn:Hstop.
  - apply limit_reached in Hstop; rewrite length_app in *; simpl in *; lia.
  - apply IH. rewrite length_app. simpl in *. lia.
Qed.

Lemma listExecutionsLoop_length
      (env : Env) (workflow : string) (limit : Z)
      (it : list (error + Execution)) (acc l : list ExecutionInfo) :
  (length acc < Z.to_nat (Z.max 1 limit))%nat ->
  listExecutionsLoop env it workflow limit acc = inr l ->
  (length l <= Z.to_nat (Z.max 1 limit))%nat.
Proof.
  revert acc. induction it as [|[raw|x] it IH]; intros acc Hacc H; simpl in H.
  - inversion H; subst. lia.
  - discriminate.
  - destruct (Z.leb limit _) eqn:Hstop.
    + inversion H; subst. rewrite length_app. simpl. lia.
    + apply (IH _) in H; [exact H|].
      destruct (Nat.le_gt_cases (Z.to_nat (Z.max 1 limit))
                                (length (acc ++ [executionInfo env x])))
        as [Hle|Hgt]; [|exact Hgt].
      apply limit_reached in Hle; [congruence | rewrite length_app; simpl; lia].
Qed.

(** X4. [ListExecutions] consumes the iterator only up to the limit, and at
    least one entry: with m = max(1, limit), it returns at most m records --
    those of the first m entries, in the iterator's order, when they are all
    executions, so a limit of zero or less still returns one record -- and
    it fails, with the classified error and none of the records read so far,
    exactly on an error among the first m entries; an error further down the
    iterator is never seen. *)
Theorem ListExecutions_stops_at_limit
        (env : Env) (c : Client) (workflow : string) (limit : Z) :
  let it := env_ListExecutions env (workflowName c workflow) (wrap32 limit) in
  let m := Z.to_nat (Z.max 1 limit) in
  (forall l, ListExecutions env c workflow limit = inr l -> (length l <= m)%nat)
  /\ (forall xs : list Execution,
         firstn m it = List.map inr xs ->
         ListExecutions env c workflow limit
         = inr (List.map (executionInfo env) xs))
  /\ (forall (xs : list Execution) raw rest,
         (length xs < m)%nat ->
         it = (List.map inr xs ++ inl raw :: rest)%list ->
         ListExecutions env c workflow limit
         = inl (wrapAuthError ("listing executions for '" +:+ workflow +:+ "'")
                              raw)).
Proof.
  cbn zeta. unfold ListExecutions. split; [|split].
  - intros l H. eapply listExecutionsLoop_length; [|exact H]. simpl. lia.
  - intros xs H.
    rewrite (listExecutionsLoop_ok env workflow limit _ [] xs); [reflexivity| |].
    + simpl. lia.
    + simpl. now rewrite Nat.sub_0_r.
  - intros xs raw rest Hlen ->. apply listExecutionsLoop_fails. simpl. lia.
Qed.

Lemma ListExecutions_stops_at_limit_witness :
  ListExecutions Listing.three Sample.client "get" 0
  = inr (List.map (executionInfo Listing.three) [Listing.execution "e3" None]).
Proof.
  apply (proj1 (proj2 (ListExecutions_stops_at_limit Listing.three Sample.client
                         "get" 0)) [Listing.execution "e3" None]).
  reflexivity.
Defined.

Example list_two_of_three :
  ListExecutions Listing.three Sample.client "get" 2
  = inr [ {| ei_ID := "e3"; ei_State := "SUCCEEDED";
             ei_StartTime := 1000 * Second; ei_EndTime := zeroTime;
             ei_Duration := "" |};
          {| ei_ID := "e2"; ei_State := "SUCCEEDED";
             ei_StartTime := 1000 * Second; ei_EndTime := 1004 * Second;
             ei_Duration := "4000ms" |} ].
Proof. reflexivity. Qed.

Example list_three_of_three_fails :
  ListExecutions Listing.three Sample.client "get" 3
  = inl (wrapAuthError "listing executions for 'get'"
                       (errorString "rpc error: code = Unavailable")).
Proof. reflexivity. Qed.

(** ** Path segments *)

Lemma length_append_s (a b : string) :
  String.length (a +:+ b) = (String.length a + String.length b)%nat.
Proof.
  induction a as [|x a IH]; [reflexivity|].
  rewrite app_cons_s. simpl. now rewrite IH.
Qed.

Lemma dropBytes_append (a b : string) : dropBytes (String.length a) (a +:+ b) = b.
Proof. induction a as [|x a IH]; [reflexivity|]. rewrite app_cons_s. exact IH. Qed.

Lemma Split_not_nil (s : string) (sep : ascii) : Split s sep <> [].
Proof.
  destruct s as [|a s]; simpl; [discriminate|].
  destruct (Ascii.eqb a sep); [discriminate|].
  destruct (Split s sep); discriminate.
Qed.

Lemma Contains_sep_cons (a sep : ascii) (x : string) :
  a <> sep ->
  Contains (String a x) (String sep EmptyString)
  = Contains x (String sep EmptyString).
Proof.
  intros Hne. simpl.
  destruct (Ascii.eqb_spec sep a) as [->|_]; [contradiction | reflexivity].
Qed.

(** No element of a split contains the separator. *)
Lemma Split_no_sep (s : string) (sep : ascii) :
  Forall (fun x => Contains x (String sep EmptyString) = false) (Split s sep).
Proof.
  induction s as [|a s IH]; simpl.
  - repeat constructor.
  - destruct (Ascii.eqb_spec a sep) as [->|Hne].
    + constructor; [reflexivity | exact IH].
    + destruct (Split s sep) as [|x xs]; [repeat constructor|].
      * rewrite Contains_sep_cons by assumption. reflexivity.
      * inversion IH; subst. constructor; [|assumption].
        rewrite Contains_sep_cons by assumption. assumption.
Qed.

(** Joining what was split gives the string back. *)
Lemma Join_Split (s : string) (sep : ascii) : JoinStrings (Split s sep) sep = s.
Proof.
  induction s as [|a s IH]; [reflexivity|]. simpl.
  pose proof (Split_not_nil s sep) as Hnil.
  destruct (Ascii.eqb_spec a sep) as [->|Hne].
  - destruct (Split s sep) as [|x xs]; [contradiction|].
    cbn [JoinStrings]. rewrite app_nil_s. f_equal. exact IH.
  - destruct (Split s sep) as [|x xs]; [contradiction|].
    destruct xs as [|y ys]; cbn [JoinStrings] in *.
    + now subst.
    + rewrite app_cons_s. f_equal. exact IH.
Qed.

Lemma Join_last (elems : list string) (sep : ascii) :
  elems <> [] ->
  exists dir, JoinStrings elems sep = dir +:+ List.last elems EmptyString
              /\ (dir = EmptyString \/ exists d, dir = d +:+ String sep EmptyString).
Proof.
  induction elems as [|x [|y ys] IH]; intros Hne.
  - contradiction.
  - exists EmptyString. split; [reflexivity | now left].
  - destruct (IH ltac:(discriminate)) as (dir & Hj & Hd).
    exists (x +:+ String sep dir). split.
    + change (List.last (x :: y :: ys) EmptyString)
        with (List.last (y :: ys) EmptyString).
      change (JoinStrings (x :: y :: ys) sep) with (x +:+ String sep (JoinStrings (y :: ys) sep)).
      rewrite Hj, app_assoc_s, app_cons_s. reflexivity.
    + right. destruct Hd as [->|(d & ->)].
      * exists x. reflexivity.
      * exists (x +:+ String sep d). now rewrite app_assoc_s, app_cons_s.
Qed.

Lemma Split_whole (e : string) (sep : ascii) :
  Contains e (String sep EmptyString) = false -> Split e sep = [e].
Proof.
  induction e as [|a e IH]; intros H; [reflexivity|].
  simpl in H. apply orb_false_iff in H as [Hp Hc].
  simpl. destruct (Ascii.eqb_spec a sep) as [->|Hne].
  - rewrite Ascii.eqb_refl in Hp. discriminate.
  - now rewrite (IH Hc).
Qed.

Lemma Split_append_sep (pre e : string) (sep : ascii) :
  Split (pre +:+ String sep e) sep = (Split pre sep ++ Split e sep)%list.
Proof.
  induction pre as [|a pre IH].
  - rewrite app_nil_s. simpl. now rewrite Ascii.eqb_refl.
  - rewrite app_cons_s. simpl. rewrite IH.
    pose proof (Split_not_nil pre sep) as Hnil.
    destruct (Ascii.eqb a sep); [reflexivity|].
    destruct (Split pre sep); [contradiction | reflexivity].
Qed.

Lemma executionInfo_ID (env : Env) (x : Execution) :
  ei_ID (executionInfo env x) = List.last (Split (ex_Name x) "/"%char) "".
Proof.
  unfold executionInfo. destruct (ex_StartTime x), (ex_EndTime x); reflexivity.
Qed.

(** X5. The ID that [ListExecutions] shows for an execution is the last
    path segment of its resource name: it contains no slash, the name is a
    directory part (empty, or ending in a slash) followed by the ID, and for
    a name of the form prefix/e with a slash-free e -- such as the names the
    commands build from an execution ID -- the ID is e again. *)
Theorem executionInfo_ID_last_segment (env : Env) (x : Execution) :
  Contains (ei_ID (executionInfo env x)) "/" = false
  /\ (exists dir, ex_Name x = dir +:+ ei_ID (executionInfo env x)
                  /\ (dir = "" \/ exists d, dir = d +:+ "/"))
  /\ (forall pre e, Contains e "/" = false ->
                    ex_Name x = pre +:+ "/" +:+ e ->
                    ei_ID (executionInfo env x) = e).
Proof.
  rewrite executionInfo_ID. split; [|split].
  - pose proof (Split_no_sep (ex_Name x) "/"%char) as Hall.
    pose proof (Split_not_nil (ex_Name x) "/"%char) as Hnil.
    rewrite List.Forall_forall in Hall. apply Hall.
    destruct (Split (ex_Name x) "/"%char) as [|y ys]; [contradiction|].
    apply (@List.exists_last _ (y :: ys)) in Hnil as (l' & a & Heq).
    rewrite Heq, List.last_last. apply in_or_app. right. now left.
  - destruct (Join_last (Split (ex_Name x) "/"%char) "/"%char
                        (Split_not_nil _ _)) as (dir & Hj & Hd).
    rewrite Join_Split in Hj. eauto.
  - intros pre e He ->.
    change (pre +:+ "/" +:+ e) with (pre +:+ String "/"%char e).
    rewrite Split_append_sep, (Split_whole e _ He). apply List.last_last.
Qed.

Lemma executionInfo_ID_last_segment_witness :
  ei_ID (executionInfo Listing.three (Listing.execution "abc123-def456" None))
  = "abc123-def456".
Proof.
  apply (proj2 (proj2 (executionInfo_ID_last_segment Listing.three
                         (Listing.execution "abc123-def456" None)))
               "projects/p1/locations/us-central1/workflows/get/executions"
               "abc123-def456").
  - reflexivity.
  - reflexivity.
Defined.

(** ** Listing workflows *)

Lemma workflowName_parent (c : Client) (n : string) :
  workflowName c n = workflowParent c +:+ "/workflows/" +:+ n.
Proof.
  unfold workflowName, workflowParent. now rewrite !app_assoc_s.
Qed.

Lemma shortName_of_workflowName (c : Client) (n : string) :
  (if Nat.ltb (String.length (workflowParent c))
              (String.length (workflowName c n))
   then sliceFrom (workflowName c n)
                  (String.length (workflowParent c) + String.length "/workflows/")
   else Some (workflowName c n))
  = Some n.
Proof.
  rewrite workflowName_parent.
  replace (Nat.ltb _ _) with true
    by (symmetry; apply Nat.ltb_lt; rewrite !length_append_s; simpl; lia).
  unfold sliceFrom.
  replace (Nat.leb _ _) with true
    by (symmetry; apply Nat.leb_le; rewrite !length_append_s; simpl; lia).
  f_equal. rewrite <- length_append_s, <- app_assoc_s. apply dropBytes_append.
Qed.

Lemma listLoop_names
      (c : Client) (entries : list (string * Workflow)) (acc : list WorkflowInfo) :
  Forall (fun e => wf_Name (snd e) = workflowName c (fst e)) entries ->
  listLoop c (List.map (fun e => inr (snd e)) entries) acc
  = Some (inr (acc ++ List.map
                        (fun e =>
                           {| wi_Name := fst e;
                              wi_State := wf_State (snd e);
                              wi_RevisionID := wf_RevisionId (snd e);
                              wi_UpdateTime :=
                                match wf_UpdateTime (snd e) with
                                | Some t => t
                                | None => zeroTime
                                end |}) entries)%list).
Proof.
  revert acc. induction entries as [|[n wf] entries IH]; intros acc Hall.
  - simpl. now rewrite app_nil_r.
  - inversion Hall as [|? ? Hn Hrest]; subst. simpl in Hn.
    cbn [List.map listLoop fst snd]. rewrite Hn, shortName_of_workflowName.
    rewrite (IH _ Hrest), <- app_assoc. reflexivity.
Qed.

(** X6. [List] undoes [workflowName]: when the service names every
    workflow by the client's own parent path, projects/P/locations/R/
    workflows/n, the listing returns the short names n, one record per
    workflow and in the service's order, with the state, revision and update
    time of each (the zero time when there is none). *)
Theorem List_returns_short_names
        (env : Env) (c : Client) (entries : list (string * Workflow)) :
  Forall (fun e => wf_Name (snd e) = workflowName c (fst e)) entries ->
  env_ListWorkflows env (workflowParent c)
  = List.map (fun e => inr (snd e)) entries ->
  List_ env c
  = Some (inr (List.map
                 (fun e =>
                    {| wi_Name := fst e;
                       wi_State := wf_State (snd e);
                       wi_RevisionID := wf_RevisionId (snd e);
                       wi_UpdateTime :=
                         match wf_UpdateTime (snd e) with
                         | Some t => t
                         | None => zeroTime
                         end |}) entries)).
Proof.
  intros Hall Hit. unfold List_. rewrite Hit.
  now rewrite (listLoop_names c entries [] Hall).
Qed.

Lemma List_returns_short_names_witness :
  List_ (Listing.env []
           [inr (Listing.workflow (workflowName Sample.client "get"));
            inr (Listing.workflow (workflowName Sample.client "approval-flow"))])
        Sample.client
  = Some (inr [ {| wi_Name := "get"; wi_State := "ACTIVE";
                   wi_RevisionID := "000001-a1b"; wi_UpdateTime := 2000 * Second |};
                {| wi_Name := "approval-flow"; wi_State := "ACTIVE";
                   wi_RevisionID := "000001-a1b"; wi_UpdateTime := 2000 * Second |} ]).
Proof.
  apply (List_returns_short_names _ Sample.client
           [("get", Listing.workflow (workflowName Sample.client "get"));
            ("approval-flow",
             Listing.workflow (workflowName Sample.client "approval-flow"))]).
  - repeat constructor.
  - reflexivity.
Defined.

Lemma listLoop_panics_iff
      (c : Client) (it : list (error + Workflow)) (acc : list WorkflowInfo) :
  listLoop c it acc = None <->
  exists pre wf rest,
    it = (List.map inr pre ++ inr wf :: rest)%list
    /\ sliceOutOfRange c wf
    /\ Forall (fun w => ~ sliceOutOfRange c w) pre.
Proof.
  revert acc. induction it as [|[raw|wf] it IH]; intros acc.
  - split; [discriminate|]. intros (pre & wf & rest & H & _).
    destruct pre; discriminate.
  - split; [discriminate|]. intros (pre & wf & rest & H & _).
    destruct pre; discriminate.
  - cbn [listLoop]. unfold sliceFrom, sliceOutOfRange in *.
    destruct (Nat.ltb_spec (String.length (workflowParent c))
                           (String.length (wf_Name wf))) as [Hlt|Hge].
    + destruct (Nat.leb_spec (String.length (workflowParent c)
                              + String.length "/workflows/")
                             (String.length (wf_Name wf))) as [Hle|Hgt].
      * rewrite IH. split.
        -- intros (pre & w & rest & -> & Hw & Hpre).
           exists (wf :: pre), w, rest. split; [reflexivity|].
           split; [exact Hw|]. constructor; [lia | exact Hpre].
        -- intros (pre & w & rest & Hit & Hw & Hpre).
           destruct pre as [|p pre]; simpl in Hit; inversion Hit; subst.
           ++ lia.
           ++ inversion Hpre; subst. eauto 6.
      * split; [|reflexivity]. intros _.
        exists [], wf, it. split; [reflexivity|]. split; [lia | constructor].
    + rewrite IH. split.
      * intros (pre & w & rest & -> & Hw & Hpre).
        exists (wf :: pre), w, rest. split; [reflexivity|].
        split; [exact Hw|]. constructor; [lia | exact Hpre].
      * intros (pre & w & rest & Hit & Hw & Hpre).
        destruct pre as [|p pre]; simpl in Hit; inversion Hit; subst.
        -- lia.
        -- inversion Hpre; subst. eauto 6.
Qed.

(** X7. [List] panics (the slice expression is out of range) exactly when
    the service returns, before any error of the iterator, a workflow whose
    name is longer than the client's parent path but shorter than that path
    plus "/workflows/"; every other listing returns normally, with a list or
    with the classified error. *)
Theorem List_panics_iff (env : Env) (c : Client) :
  List_ env c = None <->
  exists pre wf rest,
    env_ListWorkflows env (workflowParent c)
    = (List.map inr pre ++ inr wf :: rest)%list
    /\ sliceOutOfRange c wf
    /\ Forall (fun w => ~ sliceOutOfRange c w) pre.
Proof. unfold List_. apply listLoop_panics_iff. Qed.

Example List_panics_on_project_number :
  List_ (Listing.env []
           [inr (Listing.workflow
                   "projects/1234/locations/us-central1/workflows/get")])
        {| Project := "my-project-id"; Region := "us-central1" |}
  = None.
Proof. reflexivity. Qed.

(** ** The classifier and the error chain *)

Lemma Contains_trans (s b a : string) :
  Contains s b = true -> Contains b a = true -> Contains s a = true.
Proof.
  intros Hsb Hba.
  apply Contains_spec in Hsb as (p1 & q1 & ->).
  apply Contains_spec in Hba as (p2 & q2 & ->).
  apply Contains_spec. exists (p1 +:+ p2), (q2 +:+ q1).
  now rewrite !app_assoc_s.
Qed.

(** X8. The classifier keeps the original error only when it does not
    recognise it.  Its result always starts with the action label; for an
    unrecognised message the original error stays reachable through Unwrap,
    while for each of the five recognised causes the result is a fresh error
    without a wrapped cause, whose text depends on the action and the cause
    kind alone -- the original message is dropped. *)
Theorem wrapAuthError_error_chain (action : string) (err : error) :
  HasPrefix (Error (wrapAuthError action err)) action = true
  /\ (Unwrap (wrapAuthError action err) = Some err
      <-> Classifier.classify (Error err) = Classifier.Unclassified)
  /\ (Classifier.classify (Error err) <> Classifier.Unclassified ->
      Unwrap (wrapAuthError action err) = None
      /\ forall err',
          Classifier.classify (Error err') = Classifier.classify (Error err) ->
          wrapAuthError action err' = wrapAuthError action err).
Proof.
  rewrite wrapAuthError_render. split; [|split].
  - destruct (Classifier.classify (Error err)); simpl; apply HasPrefix_app.
  - destruct (Classifier.classify (Error err)); simpl;
      split; try discriminate; reflexivity.
  - intros Hne. split.
    + destruct (Classifier.classify (Error err)); simpl;
        [reflexivity ..| contradiction].
    + intros err' Hsame. rewrite wrapAuthError_render, Hsame.
      destruct (Classifier.classify (Error err)); simpl;
        [reflexivity ..| contradiction].
Qed.

Lemma wrapAuthError_error_chain_witness :
  Unwrap (wrapAuthError "listing workflows"
                        (errorString "googleapi: Error 403: forbidden"))
  = None
  /\ forall err',
      Classifier.classify (Error err')
      = Classifier.classify (Error (errorString "googleapi: Error 403: forbidden")) ->
      wrapAuthError "listing workflows" err'
      = wrapAuthError "listing workflows"
                      (errorString "googleapi: Error 403: forbidden").
Proof.
  apply (proj2 (proj2 (wrapAuthError_error_chain
                         "listing workflows"
                         (errorString "googleapi: Error 403: forbidden")))).
  discriminate.
Defined.

(** X9. The second alternative of the expired-credentials case never
    decides: a message that contains "oauth2: token expired" contains "token
    expired", so the case is taken exactly when the message contains "token
    expired" and not the missing-credentials text. *)
Theorem expired_case_first_alternative (msg : string) :
  (Contains msg "token expired" || Contains msg "oauth2: token expired")
  = Contains msg "token expired"
  /\ (Classifier.classify msg = Classifier.ExpiredCredentials
      <-> Contains msg "could not find default credentials" = false
          /\ Contains msg "token expired" = true).
Proof.
  assert ((Contains msg "token expired" || Contains msg "oauth2: token expired")
          = Contains msg "token expired") as Hor.
  { destruct (Contains msg "token expired") eqn:H1; [reflexivity|].
    destruct (Contains msg "oauth2: token expired") eqn:H2; [|reflexivity].
    rewrite (Contains_trans msg "oauth2: token expired" "token expired" H2 eq_refl)
      in H1. discriminate. }
  split; [exact Hor|].
  unfold Classifier.classify, Classifier.table, Classifier.matches. simpl.
  rewrite orb_false_r.
  destruct (Contains msg "could not find default credentials").
  - simpl. split; [discriminate | intros [? _]; discriminate].
  - simpl. rewrite orb_false_r, Hor.
    destruct (Contains msg "token expired"); simpl.
    + split; auto.
    + split; [|intros [_ ?]; discriminate].
      repeat (match goal with
              | |- context [if ?b then _ else _] => destruct b; simpl
              end);
        discriminate.
Qed.

(** ** What resume sends *)

Ltac case_inner :=
  match goal with
  | |- context [match ?x with _ => _ end] =>
      lazymatch x with
      | context [match _ with _ => _ end] => fail
      | _ => destruct x eqn:?
      end
  end.

Lemma ListCallbacks_trace (env : Env) (c : Client) (name : string) (s : St) :
  exists evs : list Event,
    st_log (snd (ListCallbacks env c name s)) = (st_log s ++ evs)%list
    /\ (evs = [EvDefaultClient]
        \/ evs = [EvDefaultClient; EvHTTP (listingRequest name)])
    /\ st_rpc (snd (ListCallbacks env c name s)) = st_rpc s.
Proof.
  unfold ListCallbacks, bind, ret, google_DefaultClient, http_NewRequest,
    httpClient_Do, listingRequest.
  cbn [st_http st_cred st_log].
  repeat (case_inner; cbn beta iota); cbn [fst snd st_log st_rpc];
    try (exists [EvDefaultClient]; split; [reflexivity | split; [now left | reflexivity]]);
    (eexists; split; [now rewrite <- app_assoc | split; [now right | reflexivity]]).
Qed.

Lemma ListCallbacks_urls
      (env : Env) (c : Client) (name : string) (s : St) (l : list CallbackInfo) :
  fst (ListCallbacks env c name s) = inr l ->
  Forall (fun cb => cb_URL cb = callbacksAPIBase +:+ "/" +:+ cb_Name cb) l.
Proof.
  unfold ListCallbacks, bind, ret, google_DefaultClient, http_NewRequest,
    httpClient_Do.
  cbn [st_http st_cred st_log].
  repeat (case_inner; cbn beta iota); cbn [fst]; try discriminate.
  intros H. inversion H. apply List.Forall_forall. intros cb Hin.
  apply List.in_map_iff in Hin as (x & <- & _). reflexivity.
Qed.

Lemma TriggerCallback_trace
      (env : Env) (c : Client) (url method : string)
      (data : option (gmap string any)) (s : St) :
  exists evs : list Event,
    st_log (snd (TriggerCallback env c url method data s)) = (st_log s ++ evs)%list
    /\ (evs = [EvDefaultClient]
        \/ exists body,
            evs = [EvDefaultClient; EvHTTP (triggerRequest url method body)]
            /\ (body = None <-> data = None))
    /\ st_rpc (snd (TriggerCallback env c url method data s)) = st_rpc s.
Proof.
  unfold TriggerCallback, bind, ret, google_DefaultClient, http_NewRequest,
    httpClient_Do, triggerRequest.
  cbn [st_http st_cred st_log].
  destruct (env_DefaultClient env (st_cred s)).
  { exists [EvDefaultClient]. split; [reflexivity | split; [now left | reflexivity]]. }
  destruct data as [m|].
  - destruct (json_Marshal env (Some m)) as [err|jsonData].
    { exists [EvDefaultClient].
      split; [reflexivity | split; [now left | reflexivity]]. }
    destruct (env_NewRequest env _ url).
    { exists [EvDefaultClient].
      split; [reflexivity | split; [now left | reflexivity]]. }
    cbn [st_http st_cred st_log Header_Set_ContentType req_Method req_URL req_Body].
    eexists. split; [|split].
    2:{ right. exists (Some jsonData). split; [reflexivity|]. split; discriminate. }
    + destruct (env_Do env (st_http s) _) as [raw|resp]; cbn [snd st_log];
        [now rewrite <- app_assoc|].
      destruct (_ || _); cbn [snd st_log]; now rewrite <- app_assoc.
    + destruct (env_Do env (st_http s) _) as [raw|resp]; [reflexivity|].
      destruct (_ || _); reflexivity.
  - destruct (env_NewRequest env _ url).
    { exists [EvDefaultClient].
      split; [reflexivity | split; [now left | reflexivity]]. }
    cbn [st_http st_cred st_log].
    eexists. split; [|split].
    2:{ right. exists None. split; [reflexivity|]. split; reflexivity. }
    + destruct (env_Do env (st_http s) _) as [raw|resp]; cbn [snd st_log];
        [now rewrite <- app_assoc|].
      destruct (_ || _); cbn [snd st_log]; now rewrite <- app_assoc.
    + destruct (env_Do env (st_http s) _) as [raw|resp]; [reflexivity|].
      destruct (_ || _); reflexivity.
Qed.

Lemma closes_app (a b : list Event) : closes (a ++ b) = (closes a + closes b)%nat.
Proof. unfold closes. now rewrite List.filter_app, length_app. Qed.

Lemma poll_events_measures (name : string) (evs : list Event) :
  Forall (isPollEvent name) evs -> requests evs = [] /\ closes evs = 0%nat.
Proof.
  induction 1 as [|ev evs Hev _ [IHr IHc]]; [split; reflexivity|].
  unfold requests, closes in *. simpl. rewrite IHr.
  destruct ev; simpl in Hev; try contradiction; simpl; auto.
Qed.

Ltac quiet_leaf HR evs0 evs0' :=
  injection HR as <- <-; exists evs0;
  split; [cbn [st_log]; now rewrite <- ?app_assoc|];
  split; [now left|]; split; [left; unfold reads; simpl; lia|];
  split; [unfold closes; simpl; lia|];
  first [ intros; contradiction
        | intros; discriminate
        | intros _ _ _; exists evs0'; split; reflexivity ].

Lemma RunE_shape
      (env : Env) (flags : ResumeFlags) (fuel : nat) (workflow execID : string)
      (s sF : St) (out : Outcome) :
  RunE env flags fuel workflow execID s = (out, sF) ->
  exists evs : list Event,
    st_log sF = (st_log s ++ evs)%list
    /\ resumeRunShape env flags workflow execID s out evs.
Proof.
  intros HR. unfold resumeRunShape. enter_RunE flags workflow execID.
  unfold RunE in HR. fold (resumeExecName flags workflow execID) in HR.
  destruct (String.eqb_spec (flag_project flags) "") as [Hp|Hp].
  { unfold fail, ret in HR. injection HR as <- <-. exists [].
    rewrite app_nil_r. split; [reflexivity|].
    split; [now left|]. split; [left; unfold reads; simpl; lia|].
    split; [unfold closes; simpl; lia|]. intros; contradiction. }
  destruct (String.eqb_spec (flag_region flags) "") as [Hr|Hr].
  { unfold fail, ret in HR. injection HR as <- <-. exists [].
    rewrite app_nil_r. split; [reflexivity|].
    split; [now left|]. split; [left; unfold reads; simpl; lia|].
    split; [unfold closes; simpl; lia|]. intros; contradiction. }
  unfold NewClient in HR.
  destruct (env_execNewClient env) as [e1|] eqn:He1.
  { unfold fail, bind, ret in HR. injection HR as <- <-. exists [].
    rewrite app_nil_r. split; [reflexivity|].
    split; [now left|]. split; [left; unfold reads; simpl; lia|].
    split; [unfold closes; simpl; lia|]. intros; discriminate. }
  destruct (env_wfNewClient env) as [e2|] eqn:He2.
  { unfold fail, bind, ret, Close, emit in HR. quiet_leaf HR [EvClose] (@nil Event). }
  unfold bind at 1 in HR. unfold ret at 1 in HR. unfold bind at 1 in HR.
  unfold resumeBody in HR. unfold bind at 1 in HR.
  rewrite GetExecution_unfold in HR.
  set (n := resumeExecName flags workflow execID) in *.
  destruct (env_GetExecution env (st_rpc s) n) as [err|x] eqn:Hx.
  { unfold fail, bind, ret, Close, emit in HR. cbn in HR.
    quiet_leaf HR [EvGetExecution n; EvClose] [EvGetExecution n]. }
  destruct (String.eqb_spec (er_State (resultOf env x)) "ACTIVE") as [Hst|Hst];
    cbn [negb] in HR.
  2:{ unfold fail, bind, ret, Close, emit in HR. cbn in HR.
      quiet_leaf HR [EvGetExecution n; EvClose] [EvGetExecution n]. }
  unfold bind at 1 in HR.
  destruct (ListCallbacks_trace env
              {| Project := flag_project flags; Region := flag_region flags |}
              (er_Name (resultOf env x)) (afterGet n s))
    as (evsL & HlogL & HevsL & _).
  pose proof (ListCallbacks_listing_state env
                {| Project := flag_project flags; Region := flag_region flags |}
                (er_Name (resultOf env x)) (afterGet n s)) as Hs1.
  destruct (ListCallbacks env _ _ _) as [l s1] eqn:HL.
  cbn [fst snd] in *. cbn [afterGet st_log] in HlogL.
  assert (reads evsL = 0%nat /\ closes evsL = 0%nat) as [HreadL HcloseL]
      by (destruct HevsL as [->| ->]; split; reflexivity).
  (* the runs that stop before the trigger *)
  assert (forall sF' out',
             (out', {| st_rpc := st_rpc s1; st_sel := st_sel s1;
                       st_cred := st_cred s1; st_http := st_http s1;
                       st_log := st_log s1 ++ [EvClose] |}) = (out, sF') ->
             sF' = sF ->
             exists evs : list Event,
               st_log sF = (st_log s ++ evs)%list
               /\ (requests evs = []
                   \/ exists r,
                       Some (resultOf env x) = Some r
                       /\ er_State r = "ACTIVE"
                       /\ (requests evs = [listingRequest (er_Name r)]
                           \/ exists cb rest body,
                               match l with
                               | inr callbacks => Some callbacks
                               | inl _ => None
                               end = Some (cb :: rest)
                               /\ requests evs
                                  = [listingRequest (er_Name r);
                                     triggerRequest (cb_URL cb) (cb_Method cb) body]))
               /\ ((reads evs <= 1)%nat
                   \/ flag_wait flags = true
                      /\ (out = StillWaiting \/ out = Returned None
                          \/ exists e, out = Returned (Some (WaitFailed, e))
                                       \/ out = Returned (Some (PrintFailed, e))))
               /\ (closes evs <= 1)%nat
               /\ (flag_project flags <> "" -> flag_region flags <> "" ->
                   @None error = None ->
                   exists evs', evs = (evs' ++ [EvClose])%list
                                /\ closes evs' = 0%nat))
    as Hearly.
  { intros sF' out' Heq <-. injection Heq as _ <-.
    exists ([EvGetExecution n] ++ evsL ++ [EvClose])%list.
    cbn [st_log]. rewrite HlogL, <- !app_assoc.
    split; [reflexivity|].
    rewrite !requests_app, !reads_app, !closes_app, HreadL, HcloseL.
    split; [|split; [left; unfold reads; simpl; lia
                    |split; [unfold closes; simpl; lia|]]].
    - destruct HevsL as [-> | ->]; [now left|].
      right. exists (resultOf env x). split; [reflexivity|]. split; [exact Hst|].
      now left.
    - intros _ _ _. exists ([EvGetExecution n] ++ evsL)%list.
      split; [now rewrite <- !app_assoc|].
      rewrite closes_app, HcloseL. reflexivity. }
  destruct l as [err|[|cb rest]].
  { unfold fail, bind, ret, Close, emit in HR. cbn [fst snd] in HR.
    eapply Hearly; [exact HR | reflexivity]. }
  { unfold fail, bind, ret, Close, emit in HR. cbn [fst snd] in HR.
    eapply Hearly; [exact HR | reflexivity]. }
  destruct (if negb (String.eqb (flag_data flags) "")
            then json_Unmarshal env (flag_data flags) else inr None)
    as [err|parsedData].
  { unfold fail, bind, ret, Close, emit in HR. cbn [fst snd] in HR.
    eapply Hearly; [exact HR | reflexivity]. }
  clear Hearly.
  assert (evsL = [EvDefaultClient;
                  EvHTTP (listingRequest (er_Name (resultOf env x)))]) as ->.
  { rewrite (Hs1 _ eq_refl) in HlogL. cbn [st_log afterGet] in HlogL.
    now apply app_inv_head in HlogL. }
  clear Hs1 HevsL.
  (* the runs that reach the trigger: [tail] is what follows the listing *)
  assert (forall tail,
             st_log sF
             = (st_log s1 ++ tail ++ [EvClose])%list ->
             closes tail = 0%nat ->
             (requests tail = []
              \/ exists body,
                  requests tail = [triggerRequest (cb_URL cb) (cb_Method cb) body]) ->
             ((reads tail = 0)%nat
              \/ flag_wait flags = true
                 /\ (out = StillWaiting \/ out = Returned None
                     \/ exists e, out = Returned (Some (WaitFailed, e))
                                  \/ out = Returned (Some (PrintFailed, e)))) ->
             exists evs : list Event,
               st_log sF = (st_log s ++ evs)%list
               /\ (requests evs = []
                   \/ exists r,
                       Some (resultOf env x) = Some r
                       /\ er_State r = "ACTIVE"
                       /\ (requests evs = [listingRequest (er_Name r)]
                           \/ exists cb0 rest0 body,
                               Some (cb :: rest) = Some (cb0 :: rest0)
                               /\ requests evs
                                  = [listingRequest (er_Name r);
                                     triggerRequest (cb_URL cb0) (cb_Method cb0)
                                                    body]))
               /\ ((reads evs <= 1)%nat
                   \/ flag_wait flags = true
                      /\ (out = StillWaiting \/ out = Returned None
                          \/ exists e, out = Returned (Some (WaitFailed, e))
                                       \/ out = Returned (Some (PrintFailed, e))))
               /\ (closes evs <= 1)%nat
               /\ (flag_project flags <> "" -> flag_region flags <> "" ->
                   @None error = None ->
                   exists evs', evs = (evs' ++ [EvClose])%list
                                /\ closes evs' = 0%nat))
    as Hlate.
  { intros tail Hlog Hct Hrt Hdt.
    exists ([EvGetExecution n; EvDefaultClient;
             EvHTTP (listingRequest (er_Name (resultOf env x)))]
              ++ tail ++ [EvClose])%list.
    rewrite Hlog, HlogL, <- !app_assoc.
    split; [reflexivity|].
    rewrite !requests_app, !reads_app, !closes_app, Hct.
    split; [|split; [|split; [unfold closes; simpl; lia|]]].
    - right. exists (resultOf env x). split; [reflexivity|]. split; [exact Hst|].
      destruct Hrt as [-> | (body & ->)]; [now left|].
      right. exists cb, rest, body. split; reflexivity.
    - destruct Hdt as [-> | Hw]; [left; unfold reads; simpl; lia | now right].
    - intros _ _ _.
      exists ([EvGetExecution n; EvDefaultClient;
               EvHTTP (listingRequest (er_Name (resultOf env x)))] ++ tail)%list.
      split; [now rewrite <- !app_assoc|].
      rewrite closes_app, Hct. reflexivity. }
  unfold bind at 1 in HR. unfold emit at 1 in HR. unfold bind at 1 in HR.
  match type of HR with
  | context [TriggerCallback ?e ?c ?u ?m ?d ?st] =>
      destruct (TriggerCallback_trace e c u m d st) as (evsT & HlogT & HevsT & _);
      destruct (TriggerCallback e c u m d st) as [t s2] eqn:HT
  end.
  cbn [fst snd st_log] in HlogT.
  assert (closes evsT = 0%nat
          /\ reads evsT = 0%nat
          /\ (requests evsT = []
              \/ exists body,
                  requests evsT = [triggerRequest (cb_URL cb) (cb_Method cb) body]))
    as (HcT & HdT & HrT).
  { destruct HevsT as [-> | (body & -> & _)];
      (split; [reflexivity | split; [reflexivity|]]); [now left | right; eauto]. }
  destruct t as [err|].
  - (* the trigger failed *)
    unfold fail, bind, ret, Close, emit in HR. cbn [fst snd st_log] in HR.
    injection HR as <- <-.
    match type of HT with
    | context [EvStderr ?m] => apply (Hlate ([EvStderr m] ++ evsT)%list)
    end.
    + cbn [st_log]. now rewrite HlogT, <- !app_assoc.
    + now rewrite closes_app, HcT.
    + rewrite requests_app. exact HrT.
    + left. now rewrite reads_app, HdT.
  - (* the trigger succeeded *)
    unfold bind at 1 in HR. unfold emit at 1 in HR.
    destruct (flag_wait flags) eqn:Hwait.
    + (* --wait: the poller runs *)
      unfold bind at 1 in HR. unfold emit at 1 in HR. unfold bind at 1 in HR.
      unfold WaitForCompletion in HR.
      match type of HR with
      | context [waitLoop ?e ?f ?nm ?p ?st] =>
          destruct (waitLoop_trace e f nm p st)
            as (evsW & HlogW & HallW & _ & _ & _ & _);
          destruct (waitLoop e f nm p st) as [w s3] eqn:HW
      end.
      cbn [fst snd st_log] in HlogW. rewrite HlogT in HlogW.
      destruct (poll_events_measures n evsW HallW) as [HrW HcW].
      assert (sF = {| st_rpc := st_rpc s3; st_sel := st_sel s3;
                      st_cred := st_cred s3; st_http := st_http s3;
                      st_log := st_log s3 ++ [EvClose] |}
              /\ (out = StillWaiting \/ out = Returned None
                  \/ exists e, out = Returned (Some (WaitFailed, e))
                               \/ out = Returned (Some (PrintFailed, e))))
        as (HsF & Hout).
      { destruct w as [[e|r]|]; unfold fail, bind, ret, Close, emit in HR;
          [| destruct (env_printStatus env r workflow execID (flag_output flags)) |];
          cbn [fst snd] in HR; injection HR as <- <-;
          (split; [reflexivity|]); eauto 6. }
      match type of HlogW with
      | _ = ((((_ ++ [EvStderr ?m1]) ++ evsT) ++ [EvStderr ?m2])
               ++ [EvStderr ?m3] ++ evsW)%list =>
          apply (Hlate ([EvStderr m1] ++ evsT ++ [EvStderr m2; EvStderr m3]
                          ++ evsW)%list)
      | _ = (((((_ ++ [EvStderr ?m1]) ++ evsT) ++ [EvStderr ?m2])
               ++ [EvStderr ?m3]) ++ evsW)%list =>
          apply (Hlate ([EvStderr m1] ++ evsT ++ [EvStderr m2; EvStderr m3]
                          ++ evsW)%list)
      end.
      * rewrite HsF. cbn [st_log]. now rewrite HlogW, <- !app_assoc.
      * rewrite !closes_app, HcT, HcW. reflexivity.
      * rewrite !requests_app, HrW. cbn [requests flat_map app].
        rewrite ?app_nil_r. exact HrT.
      * right. split; [reflexivity | exact Hout].
    + (* no --wait *)
      unfold bind, ret, Close, emit in HR. cbn [fst snd st_log] in HR.
      injection HR as <- <-.
      match goal with
      | |- context [(((((st_log s2 ++ [EvStderr ?m2]) ++ [EvStderr ?m3])
                        ++ [EvStderr ?m4]) ++ [EvClose]))%list] =>
          match type of HT with
          | context [EvStderr ?m1] =>
              apply (Hlate ([EvStderr m1] ++ evsT
                              ++ [EvStderr m2; EvStderr m3; EvStderr m4])%list)
          end
      end.
      * cbn [st_log]. now rewrite HlogT, <- !app_assoc.
      * rewrite !closes_app, HcT. reflexivity.
      * rewrite !requests_app. cbn [requests flat_map app].
        rewrite ?app_nil_r. exact HrT.
      * left. rewrite !reads_app, HdT. reflexivity.
Qed.

Lemma resumeListed_inv
      (env : Env) (flags : ResumeFlags) (workflow execID : string) (s : St)
      (l : list CallbackInfo) :
  resumeListed env flags workflow execID s = Some l ->
  exists r,
    resumeObserved env flags workflow execID s = Some r
    /\ fst (ListCallbacks env
              {| Project := flag_project flags; Region := flag_region flags |}
              (er_Name r) (afterGet (resumeExecName flags workflow execID) s))
       = inr l.
Proof.
  unfold resumeListed.
  destruct (resumeObserved env flags workflow execID s) as [r|]; [|discriminate].
  destruct (fst (ListCallbacks _ _ _ _)) as [e|l'] eqn:Hl; [discriminate|].
  intros H. inversion H; subst. eauto.
Qed.

(** X10. Whatever the environment answers, resume sends at most two HTTP
    requests: the GET of the callback list of the execution it observed
    ACTIVE, and then at most one trigger, addressed to the first callback of
    that list -- at callbacksAPIBase/<its name>, with its method, or POST
    when the listed method is empty.  No later callback of the list is ever
    requested, and nothing is requested for an execution that was not
    observed ACTIVE. *)
Theorem resume_requests_first_callback_only
        (env : Env) (flags : ResumeFlags) (fuel : nat) (workflow execID : string)
        (s : St) :
  exists evs : list Event,
    st_log (snd (RunE env flags fuel workflow execID s)) = (st_log s ++ evs)%list
    /\ (requests evs = []
        \/ exists r,
            resumeObserved env flags workflow execID s = Some r
            /\ er_State r = "ACTIVE"
            /\ (requests evs = [listingRequest (er_Name r)]
                \/ exists cb rest req,
                    resumeListed env flags workflow execID s = Some (cb :: rest)
                    /\ requests evs = [listingRequest (er_Name r); req]
                    /\ req_URL req = callbacksAPIBase +:+ "/" +:+ cb_Name cb
                    /\ req_Method req
                       = (if String.eqb (cb_Method cb) "" then MethodPost
                          else cb_Method cb))).
Proof.
  destruct (RunE env flags fuel workflow execID s) as [out sF] eqn:HR.
  destruct (RunE_shape env flags fuel workflow execID s sF out HR)
    as (evs & Hlog & Hreq & _).
  exists evs. split; [exact Hlog|].
  destruct Hreq as [Hnone | (r & Hobs & Hst & Hreq)]; [now left|].
  right. exists r. split; [exact Hobs|]. split; [exact Hst|].
  destruct Hreq as [Hl | (cb & rest & body & Hlisted & Hreq)]; [now left|].
  right. exists cb, rest, (triggerRequest (cb_URL cb) (cb_Method cb) body).
  split; [exact Hlisted|]. split; [exact Hreq|].
  apply resumeListed_inv in Hlisted as (r' & _ & Hl).
  apply ListCallbacks_urls in Hl. inversion Hl; subst.
  split; [assumption | reflexivity].
Qed.

Example resume_two_callbacks :
  requests (st_log (snd (RunE Commands.waiting Sample.flags 0 "get" "e1" st0)))
  = [listingRequest Sample.name;
     {| req_Method := "POST";
        req_URL := callbacksAPIBase +:+ "/" +:+ Commands.cb1;
        req_Body := None; req_ContentType := None |}].
Proof. reflexivity. Qed.

(** X11. resume reads the execution once, and again only to wait: without
    --wait a run makes at most one GetExecution call, and with --wait it
    polls only after the trigger has succeeded -- a run that ends with any
    failure other than a failed wait or a failed print has read at most
    once. *)
Theorem resume_polls_only_after_trigger
        (env : Env) (flags : ResumeFlags) (fuel : nat) (workflow execID : string)
        (s : St) :
  exists evs : list Event,
    st_log (snd (RunE env flags fuel workflow execID s)) = (st_log s ++ evs)%list
    /\ (flag_wait flags = false -> (reads evs <= 1)%nat)
    /\ (forall k e,
           fst (RunE env flags fuel workflow execID s) = Returned (Some (k, e)) ->
           k <> WaitFailed -> k <> PrintFailed -> (reads evs <= 1)%nat).
Proof.
  destruct (RunE env flags fuel workflow execID s) as [out sF] eqn:HR.
  destruct (RunE_shape env flags fuel workflow execID s sF out HR)
    as (evs & Hlog & _ & Hreads & _).
  exists evs. split; [exact Hlog|]. cbn [fst]. split.
  - intros Hw. destruct Hreads as [H | [Hw' _]]; [exact H | congruence].
  - intros k e -> Hk1 Hk2.
    destruct Hreads as [H | (_ & [Ho | [Ho | (e' & [Ho | Ho])]])];
      [exact H | discriminate | discriminate | |];
      inversion Ho; subst; contradiction.
Qed.


(** X13. --data is decoded only once a callback has been found: when the
    observed execution is ACTIVE with a pending callback and the data text
    does not decode, resume fails with the decoding error before anything is
    triggered -- the only request of the run is the GET of the callback
    list, and the execution is read once, also with --wait. *)
Theorem resume_undecodable_data
        (env : Env) (flags : ResumeFlags) (fuel : nat) (workflow execID : string)
        (s : St) (r : ExecutionResult) (cb : CallbackInfo)
        (rest : list CallbackInfo) (err : error) :
  resumeObserved env flags workflow execID s = Some r ->
  er_State r = "ACTIVE" ->
  resumeListed env flags workflow execID s = Some (cb :: rest) ->
  flag_data flags <> "" ->
  json_Unmarshal env (flag_data flags) = inl err ->
  RunE env flags fuel workflow execID s
  = (Returned (Some (DataParsingFailed, Errorf_w "parsing --data as JSON" err)),
     {| st_rpc := S (st_rpc s); st_sel := st_sel s; st_cred := S (st_cred s);
        st_http := S (st_http s);
        st_log := st_log s ++ [EvGetExecution (resumeExecName flags workflow execID);
                               EvDefaultClient; EvHTTP (listingRequest (er_Name r));
                               EvClose] |}).
Proof.
  enter_RunE flags workflow execID.
  destruct (String.eqb (flag_project flags) "") eqn:Hp; [discriminate|].
  destruct (String.eqb (flag_region flags) "") eqn:Hr; [discriminate|].
  unfold NewClient.
  destruct (env_execNewClient env); [discriminate|].
  destruct (env_wfNewClient env); [discriminate|].
  unfold bind at 1. unfold ret at 1. unfold bind at 1.
  unfold resumeBody. unfold bind at 1. rewrite GetExecution_unfold.
  destruct (env_GetExecution env (st_rpc s) _ ) as [e|x]; [discriminate|].
  intros Hr' Hst. inversion Hr'; subst r.
  rewrite Hst, String.eqb_refl. cbn [negb]. unfold bind at 1.
  pose proof (ListCallbacks_listing_state env
                {| Project := flag_project flags; Region := flag_region flags |}
                (er_Name (resultOf env x))
                (afterGet (resumeExecName flags workflow execID) s)) as Hstate.
  destruct (ListCallbacks env _ _ _) as [[e|l] s1] eqn:Hl; [discriminate|].
  cbn [fst snd] in *. intros Hl' Hdata Hdec. inversion Hl'; subst l.
  apply String.eqb_neq in Hdata. rewrite Hdata, Hdec. cbn [negb].
  unfold fail, bind, ret, emit, Close. simpl.
  rewrite (Hstate _ eq_refl). simpl. now rewrite <- !app_assoc.
Qed.

Lemma resume_undecodable_data_witness :
  RunE Commands.waiting Commands.badData 5 "get" "e1" st0
  = (Returned (Some (DataParsingFailed,
                     Errorf_w "parsing --data as JSON"
                              (errorString "invalid character"))),
     {| st_rpc := S (st_rpc st0); st_sel := st_sel st0; st_cred := S (st_cred st0);
        st_http := S (st_http st0);
        st_log := st_log st0
                  ++ [EvGetExecution (resumeExecName Commands.badData "get" "e1");
                      EvDefaultClient;
                      EvHTTP (listingRequest
                                (er_Name (resultOf Commands.waiting Sample.active)));
                      EvClose] |}).
Proof.
  apply (resume_undecodable_data Commands.waiting Commands.badData 5 "get" "e1" st0
           (resultOf Commands.waiting Sample.active)
           {| cb_Name := Commands.cb1; cb_Method := "";
              cb_URL := callbacksAPIBase +:+ "/" +:+ Commands.cb1 |}
           [{| cb_Name := Commands.cb2; cb_Method := "PUT";
               cb_URL := callbacksAPIBase +:+ "/" +:+ Commands.cb2 |}]
           (errorString "invalid character")).
  - reflexivity.
  - reflexivity.
  - reflexivity.
  - discriminate.
  - reflexivity.
Defined.
